(** * PopeAgent: connection supervision and state synchronisation

    A shallow embedding of [src/pope/PopeAgent.mjs].  The agent is a
    single-threaded event-driven object: every method body runs to
    completion, and control returns to the event loop at each [await],
    timer and socket callback.  The embedding therefore has three layers:

    - the fields of the agent object (with its [AgentState]);
    - the runtime objects the agent creates and that outlive a method call
      ([WebSocket] objects, the timer table, pending probes);
    - one [step] per event-loop task ([Event]).

    Numbers are exact rationals; the wire protocol of the backend fixes the
    types of the fields of a partial state update. *)

From Stdlib Require Import ZArith QArith Qminmax Qround Qpower Lqa.
From stdpp Require Import gmap strings list.

Local Open Scope string_scope.

(** ** Data model *)

Definition Vec := list Q.

(** [JSON.stringify(a) !== JSON.stringify(b)] on two number arrays: the
    texts agree exactly when the arrays have the same length and the same
    numbers. *)
Fixpoint vec_eqb (a b : Vec) : bool :=
  match a, b with
  | [], [] => true
  | x :: a', y :: b' => Qeq_bool x y && vec_eqb a' b'
  | _, _ => false
  end.

Record Config := {
  popeBackendUrl : string;
  debug : bool
}.

Record ChatEntry := {
  sender : string;
  text : string;
  timestamp : Q
}.

(** [this.state] *)
Record AgentState := {
  isConnected : bool;
  isBackendConnected : bool;
  isMoving : bool;
  currentAnimation : string;
  currentPosition : Vec;
  currentRotation : Vec;
  activeModel : string;
  isSpeaking : bool;
  isThinking : bool;
  browserActive : bool;
  lastInteraction : Q;
  chatHistory : list ChatEntry
}.

(** The [state] object of an inbound STATE_UPDATE; an absent field is
    [None] ([undefined] in the source). *)
Record BackendState := {
  position : option Vec;
  rotation : option Vec;
  speaking : option bool;
  thinking : option bool;
  browser_active : option bool;
  current_model : option string;
  animations : option (list string)
}.

(** The properties [handleBackendMessage] reads from a parsed message. *)
Record Message := {
  msg_type : option string;
  msg_state : option BackendState;
  msg_data : option string;
  msg_objects : option (list string)
}.

(** What [JSON.parse] returns: [null] (on which a property read throws) or
    a value whose properties can be read. *)
Inductive JsonValue :=
| JNull
| JMessage (m : Message).

Record URL := {
  protocol : string;
  hostname : string;
  port : string
}.

(** Frames written by [socket.send(JSON.stringify(...))]. *)
Inductive Outbound :=
| OutStateUpdate (pos rot : Vec) (animation : string) (interacting : bool)
| OutVoiceInput (txt : string)
| OutAction (action : string) (rot : Vec).

Inductive ReadyState := CONNECTING | OPEN | CLOSING | CLOSED.

Definition ReadyState_eqb (a b : ReadyState) : bool :=
  match a, b with
  | CONNECTING, CONNECTING | OPEN, OPEN | CLOSING, CLOSING | CLOSED, CLOSED => true
  | _, _ => false
  end.

(** The two places that [await this.connectToBackend()]. *)
Inductive Caller := FromStart | FromReconnect.

Inductive PromiseState := Pending | Resolved | Rejected.

(** A [WebSocket] created by [connectToBackend], with what its handlers
    close over: the handshake [timeout] and the promise ([resolve],
    [reject]) returned to the caller. *)
Record WebSocket := {
  readyState : ReadyState;
  sent : list Outbound;
  handshakeTimer : nat;
  promise : PromiseState;
  awaitedBy : Caller
}.

Inductive TimerTask :=
| ProbeAbort (fid : nat)        (* checkBackendStatus: controller.abort(), 3000 *)
| HandshakeTimeout (sid : nat)  (* connectToBackend: 30000 *)
| Reconnect                     (* scheduleReconnect *)
| MoveDone                      (* moveToPosition: 1000 *)
| GreetingDone                  (* onPlayerNearby: 3000 *)
| IdleTick                      (* startIdleBehaviors: setInterval 45000 *)
| IdleRevert                    (* startIdleBehaviors: 5000 *)
| LookAround                    (* startIdleBehaviors: setInterval 25000 *)
| Monitor.                      (* start: setInterval 30000 *)

(** An entry of the timer table; [period] is [Some p] for [setInterval]. *)
Record Timer := {
  task : TimerTask;
  due : Q;
  period : option Q
}.

(** A [fetch] of [/status] in flight, with the abort timer and the frame of
    [connectToBackend] suspended on it. *)
Record Fetch := {
  abortTimer : nat;
  fetchCaller : Caller
}.

Inductive FetchOutcome :=
| ResponseOk        (* response.ok is true *)
| ResponseNotOk     (* a response outside 2xx *)
| FetchFailed.      (* fetch rejects *)

Inductive LogEntry :=
| ConsoleLog (m : string)
| ConsoleError (m : string).

(** Calls into the host's pose and animation surface (the places marked
    "in a real implementation, this would use Hyperfy's ... API"). *)
Inductive Actuation :=
| Animate (a : string)
| MoveTo (p : Vec)
| RotateTo (r : Vec).

Record Character := {
  name : string;
  greetings : list string
}.

(** [this.world]: whether a chat feed exists, and
    [entities?.player?.id]. *)
Record Host := {
  has_chat : bool;
  player_id : option string
}.

Record ChatMessage := {
  body : string;
  from : string;
  fromId : option string
}.

(** The agent object together with the runtime objects it created. *)
Record World := {
  (* fields of [this] *)
  world : Host;
  config : Config;
  state : AgentState;
  socket : option nat;
  connectionAttempts : option Z;
  idleAnimationInterval : option nat;
  lookAroundInterval : option nat;
  connectionMonitor : option nat;
  character : option Character;
  (* runtime *)
  sockets : gmap nat WebSocket;
  timers : gmap nat Timer;
  fetches : gmap nat Fetch;
  loading : nat;               (* start() frames awaiting loadCharacter *)
  subscriptions : nat;         (* handlers registered on the chat feed *)
  next_id : nat;
  now : Q;                     (* Date.now() *)
  draws : nat;                 (* calls of Math.random() so far *)
  console : list LogEntry;
  actuation : list Actuation
}.

(** ** Field updates *)

Definition set_isConnected (v : bool) (s : AgentState) : AgentState :=
  Build_AgentState v (isBackendConnected s) (isMoving s) (currentAnimation s) (currentPosition s) (currentRotation s) (activeModel s) (isSpeaking s) (isThinking s) (browserActive s) (lastInteraction s) (chatHistory s).
Definition set_isBackendConnected (v : bool) (s : AgentState) : AgentState :=
  Build_AgentState (isConnected s) v (isMoving s) (currentAnimation s) (currentPosition s) (currentRotation s) (activeModel s) (isSpeaking s) (isThinking s) (browserActive s) (lastInteraction s) (chatHistory s).
Definition set_isMoving (v : bool) (s : AgentState) : AgentState :=
  Build_AgentState (isConnected s) (isBackendConnected s) v (currentAnimation s) (currentPosition s) (currentRotation s) (activeModel s) (isSpeaking s) (isThinking s) (browserActive s) (lastInteraction s) (chatHistory s).
Definition set_currentAnimation (v : string) (s : AgentState) : AgentState :=
  Build_AgentState (isConnected s) (isBackendConnected s) (isMoving s) v (currentPosition s) (currentRotation s) (activeModel s) (isSpeaking s) (isThinking s) (browserActive s) (lastInteraction s) (chatHistory s).
Definition set_currentPosition (v : Vec) (s : AgentState) : AgentState :=
  Build_AgentState (isConnected s) (isBackendConnected s) (isMoving s) (currentAnimation s) v (currentRotation s) (activeModel s) (isSpeaking s) (isThinking s) (browserActive s) (lastInteraction s) (chatHistory s).
Definition set_currentRotation (v : Vec) (s : AgentState) : AgentState :=
  Build_AgentState (isConnected s) (isBackendConnected s) (isMoving s) (currentAnimation s) (currentPosition s) v (activeModel s) (isSpeaking s) (isThinking s) (browserActive s) (lastInteraction s) (chatHistory s).
Definition set_activeModel (v : string) (s : AgentState) : AgentState :=
  Build_AgentState (isConnected s) (isBackendConnected s) (isMoving s) (currentAnimation s) (currentPosition s) (currentRotation s) v (isSpeaking s) (isThinking s) (browserActive s) (lastInteraction s) (chatHistory s).
Definition set_isSpeaking (v : bool) (s : AgentState) : AgentState :=
  Build_AgentState (isConnected s) (isBackendConnected s) (isMoving s) (currentAnimation s) (currentPosition s) (currentRotation s) (activeModel s) v (isThinking s) (browserActive s) (lastInteraction s) (chatHistory s).
Definition set_isThinking (v : bool) (s : AgentState) : AgentState :=
  Build_AgentState (isConnected s) (isBackendConnected s) (isMoving s) (currentAnimation s) (currentPosition s) (currentRotation s) (activeModel s) (isSpeaking s) v (browserActive s) (lastInteraction s) (chatHistory s).
Definition set_browserActive (v : bool) (s : AgentState) : AgentState :=
  Build_AgentState (isConnected s) (isBackendConnected s) (isMoving s) (currentAnimation s) (currentPosition s) (currentRotation s) (activeModel s) (isSpeaking s) (isThinking s) v (lastInteraction s) (chatHistory s).
Definition set_lastInteraction (v : Q) (s : AgentState) : AgentState :=
  Build_AgentState (isConnected s) (isBackendConnected s) (isMoving s) (currentAnimation s) (currentPosition s) (currentRotation s) (activeModel s) (isSpeaking s) (isThinking s) (browserActive s) v (chatHistory s).
Definition set_chatHistory (v : list ChatEntry) (s : AgentState) : AgentState :=
  Build_AgentState (isConnected s) (isBackendConnected s) (isMoving s) (currentAnimation s) (currentPosition s) (currentRotation s) (activeModel s) (isSpeaking s) (isThinking s) (browserActive s) (lastInteraction s) v.

Definition set_state (v : AgentState) (w : World) : World :=
  Build_World (world w) (config w) v (socket w) (connectionAttempts w) (idleAnimationInterval w) (lookAroundInterval w) (connectionMonitor w) (character w) (sockets w) (timers w) (fetches w) (loading w) (subscriptions w) (next_id w) (now w) (draws w) (console w) (actuation w).
Definition set_socket (v : option nat) (w : World) : World :=
  Build_World (world w) (config w) (state w) v (connectionAttempts w) (idleAnimationInterval w) (lookAroundInterval w) (connectionMonitor w) (character w) (sockets w) (timers w) (fetches w) (loading w) (subscriptions w) (next_id w) (now w) (draws w) (console w) (actuation w).
Definition set_connectionAttempts (v : option Z) (w : World) : World :=
  Build_World (world w) (config w) (state w) (socket w) v (idleAnimationInterval w) (lookAroundInterval w) (connectionMonitor w) (character w) (sockets w) (timers w) (fetches w) (loading w) (subscriptions w) (next_id w) (now w) (draws w) (console w) (actuation w).
Definition set_idleAnimationInterval (v : option nat) (w : World) : World :=
  Build_World (world w) (config w) (state w) (socket w) (connectionAttempts w) v (lookAroundInterval w) (connectionMonitor w) (character w) (sockets w) (timers w) (fetches w) (loading w) (subscriptions w) (next_id w) (now w) (draws w) (console w) (actuation w).
Definition set_lookAroundInterval (v : option nat) (w : World) : World :=
  Build_World (world w) (config w) (state w) (socket w) (connectionAttempts w) (idleAnimationInterval w) v (connectionMonitor w) (character w) (sockets w) (timers w) (fetches w) (loading w) (subscriptions w) (next_id w) (now w) (draws w) (console w) (actuation w).
Definition set_connectionMonitor (v : option nat) (w : World) : World :=
  Build_World (world w) (config w) (state w) (socket w) (connectionAttempts w) (idleAnimationInterval w) (lookAroundInterval w) v (character w) (sockets w) (timers w) (fetches w) (loading w) (subscriptions w) (next_id w) (now w) (draws w) (console w) (actuation w).
Definition set_character (v : option Character) (w : World) : World :=
  Build_World (world w) (config w) (state w) (socket w) (connectionAttempts w) (idleAnimationInterval w) (lookAroundInterval w) (connectionMonitor w) v (sockets w) (timers w) (fetches w) (loading w) (subscriptions w) (next_id w) (now w) (draws w) (console w) (actuation w).
Definition set_sockets (v : gmap nat WebSocket) (w : World) : World :=
  Build_World (world w) (config w) (state w) (socket w) (connectionAttempts w) (idleAnimationInterval w) (lookAroundInterval w) (connectionMonitor w) (character w) v (timers w) (fetches w) (loading w) (subscriptions w) (next_id w) (now w) (draws w) (console w) (actuation w).
Definition set_timers (v : gmap nat Timer) (w : World) : World :=
  Build_World (world w) (config w) (state w) (socket w) (connectionAttempts w) (idleAnimationInterval w) (lookAroundInterval w) (connectionMonitor w) (character w) (sockets w) v (fetches w) (loading w) (subscriptions w) (next_id w) (now w) (draws w) (console w) (actuation w).
Definition set_fetches (v : gmap nat Fetch) (w : World) : World :=
  Build_World (world w) (config w) (state w) (socket w) (connectionAttempts w) (idleAnimationInterval w) (lookAroundInterval w) (connectionMonitor w) (character w) (sockets w) (timers w) v (loading w) (subscriptions w) (next_id w) (now w) (draws w) (console w) (actuation w).
Definition set_loading (v : nat) (w : World) : World :=
  Build_World (world w) (config w) (state w) (socket w) (connectionAttempts w) (idleAnimationInterval w) (lookAroundInterval w) (connectionMonitor w) (character w) (sockets w) (timers w) (fetches w) v (subscriptions w) (next_id w) (now w) (draws w) (console w) (actuation w).
Definition set_subscriptions (v : nat) (w : World) : World :=
  Build_World (world w) (config w) (state w) (socket w) (connectionAttempts w) (idleAnimationInterval w) (lookAroundInterval w) (connectionMonitor w) (character w) (sockets w) (timers w) (fetches w) (loading w) v (next_id w) (now w) (draws w) (console w) (actuation w).
Definition set_next_id (v : nat) (w : World) : World :=
  Build_World (world w) (config w) (state w) (socket w) (connectionAttempts w) (idleAnimationInterval w) (lookAroundInterval w) (connectionMonitor w) (character w) (sockets w) (timers w) (fetches w) (loading w) (subscriptions w) v (now w) (draws w) (console w) (actuation w).
Definition set_now (v : Q) (w : World) : World :=
  Build_World (world w) (config w) (state w) (socket w) (connectionAttempts w) (idleAnimationInterval w) (lookAroundInterval w) (connectionMonitor w) (character w) (sockets w) (timers w) (fetches w) (loading w) (subscriptions w) (next_id w) v (draws w) (console w) (actuation w).
Definition set_draws (v : nat) (w : World) : World :=
  Build_World (world w) (config w) (state w) (socket w) (connectionAttempts w) (idleAnimationInterval w) (lookAroundInterval w) (connectionMonitor w) (character w) (sockets w) (timers w) (fetches w) (loading w) (subscriptions w) (next_id w) (now w) v (console w) (actuation w).
Definition set_console (v : list LogEntry) (w : World) : World :=
  Build_World (world w) (config w) (state w) (socket w) (connectionAttempts w) (idleAnimationInterval w) (lookAroundInterval w) (connectionMonitor w) (character w) (sockets w) (timers w) (fetches w) (loading w) (subscriptions w) (next_id w) (now w) (draws w) v (actuation w).
Definition set_actuation (v : list Actuation) (w : World) : World :=
  Build_World (world w) (config w) (state w) (socket w) (connectionAttempts w) (idleAnimationInterval w) (lookAroundInterval w) (connectionMonitor w) (character w) (sockets w) (timers w) (fetches w) (loading w) (subscriptions w) (next_id w) (now w) (draws w) (console w) v.

Definition set_readyState (v : ReadyState) (k : WebSocket) : WebSocket :=
  Build_WebSocket v (sent k) (handshakeTimer k) (promise k) (awaitedBy k).
Definition set_sent (v : list Outbound) (k : WebSocket) : WebSocket :=
  Build_WebSocket (readyState k) v (handshakeTimer k) (promise k) (awaitedBy k).
Definition set_promise (v : PromiseState) (k : WebSocket) : WebSocket :=
  Build_WebSocket (readyState k) (sent k) (handshakeTimer k) v (awaitedBy k).

(** ** The platform

    What the agent takes from its runtime: [JSON.parse] and [new URL]
    ([None] when they throw), whether [new WebSocket(url)] accepts the
    target (it throws otherwise), the successive values of
    [Math.random()], and the [Math] functions used for rotations. *)
Class Platform := {
  JSON_parse : string -> option JsonValue;
  URL_parse : string -> option URL;
  WebSocket_accepts : string -> bool;
  Math_random : nat -> Q;
  Math_sin : Q -> Q;
  Math_cos : Q -> Q;
  Math_sqrt : Q -> Q;
  Math_atan2 : Q -> Q -> Q;
  Math_PI : Q
}.

(** ** The agent's methods *)

Section PopeAgent.

Context `{Platform}.

(** *** Runtime primitives *)

Definition console_log (m : string) (w : World) : World :=
  set_console (console w ++ [ConsoleLog m]) w.

Definition console_error (m : string) (w : World) : World :=
  set_console (console w ++ [ConsoleError m]) w.

Definition _log (m : string) (w : World) : World :=
  if debug (config w) then console_log m w else w.

Definition actuate (a : Actuation) (w : World) : World :=
  set_actuation (actuation w ++ [a]) w.

Definition random (w : World) : Q * World :=
  (Math_random (draws w), set_draws (S (draws w)) w).

Definition setTimeout (t : TimerTask) (delay : Q) (w : World) : nat * World :=
  let id := next_id w in
  (id, set_next_id (S id)
         (set_timers (<[id := {| task := t; due := now w + delay; period := None |}]> (timers w)) w)).

Definition setInterval (t : TimerTask) (p : Q) (w : World) : nat * World :=
  let id := next_id w in
  (id, set_next_id (S id)
         (set_timers (<[id := {| task := t; due := now w + p; period := Some p |}]> (timers w)) w)).

Definition clearTimer (id : nat) (w : World) : World :=
  set_timers (delete id (timers w)) w.

(** [this.socket && this.socket.readyState === WebSocket.OPEN] *)
Definition open_socket (w : World) : option nat :=
  match socket w with
  | Some sid =>
      match sockets w !! sid with
      | Some k => if ReadyState_eqb (readyState k) OPEN then Some sid else None
      | None => None
      end
  | None => None
  end.

Definition ws_send (sid : nat) (f : Outbound) (w : World) : World :=
  set_sockets (alter (fun k => set_sent (sent k ++ [f]) k) sid (sockets w)) w.

(** [close()] of the ws library: nothing on a CLOSED socket, otherwise the
    socket is CLOSING until its close event is delivered. *)
Definition ws_close (sid : nat) (w : World) : World :=
  set_sockets
    (alter (fun k => match readyState k with
                     | CLOSED => k
                     | _ => set_readyState CLOSING k
                     end) sid (sockets w)) w.

(** *** Interaction tracker, animation, pose *)

Definition isInteracting (w : World) : bool :=
  negb (Qle_bool 60000 (now w - lastInteraction (state w))).

Definition setAnimation (animation : string) (w : World) : World :=
  if String.eqb (currentAnimation (state w)) animation then w
  else
    let w := _log "Setting animation" w in
    let w := set_state (set_currentAnimation animation (state w)) w in
    actuate (Animate animation) w.

Definition rotateTo (r : Vec) (w : World) : World :=
  let w := _log "Rotating to" w in
  let w := actuate (RotateTo r) w in
  set_state (set_currentRotation r (state w)) w.

Definition moveToPosition (p : Vec) (w : World) : World :=
  let w := _log "Moving to position" w in
  let w := set_state (set_isMoving true (state w)) w in
  let w := setAnimation "walking" w in
  let w := actuate (MoveTo p) w in
  let w := set_state (set_currentPosition p (state w)) w in
  snd (setTimeout MoveDone 1000 w).

(** The callback of the timer set by [moveToPosition]. *)
Definition moveDone (w : World) : World :=
  let w := set_state (set_isMoving false (state w)) w in
  if negb (isSpeaking (state w)) && negb (isThinking (state w))
     && negb (browserActive (state w))
  then setAnimation "idle" w else w.

(** *** Outbound messages *)

Definition sendStateToBackend (w : World) : World :=
  match open_socket w with
  | None => w
  | Some sid =>
      ws_send sid (OutStateUpdate (currentPosition (state w))
                                  (currentRotation (state w))
                                  (currentAnimation (state w))
                                  (isInteracting w)) w
  end.

Definition sendVoiceInput (txt : string) (w : World) : World :=
  match open_socket w with
  | None => _log "Cannot send voice input: not connected to backend" w
  | Some sid =>
      let w := _log "Sending voice input" w in
      let w := ws_send sid (OutVoiceInput txt) w in
      set_state
        (set_chatHistory
           (chatHistory (state w)
              ++ [{| sender := "user"; text := txt; timestamp := now w |}])
           (state w)) w
  end.

Definition sendAction (action : string) (r : Vec) (w : World) : World :=
  match open_socket w with
  | None => _log "Cannot send action: not connected to backend" w
  | Some sid =>
      let w := _log "Sending action" w in
      ws_send sid (OutAction action r) w
  end.

Definition updateInteraction (w : World) : World :=
  let w := set_state (set_lastInteraction (now w) (state w)) w in
  sendStateToBackend w.

Definition handleIncomingChat (m : ChatMessage) (w : World) : World :=
  let w := _log "Received chat message" w in
  if decide (fromId m = player_id (world w)) then w
  else
    let w := sendVoiceInput (body m) w in
    updateInteraction w.

(** *** State reconciler *)

Definition updateStateFromBackend (b : BackendState) (w : World) : World :=
  (* position, if provided and different *)
  let w :=
    match position b with
    | Some p =>
        if negb (vec_eqb p (currentPosition (state w))) then
          let w := set_state (set_currentPosition p (state w)) w in
          moveToPosition p w
        else w
    | None => w
    end in
  (* rotation, if provided and different *)
  let w :=
    match rotation b with
    | Some r =>
        if negb (vec_eqb r (currentRotation (state w))) then
          let w := set_state (set_currentRotation r (state w)) w in
          rotateTo r w
        else w
    | None => w
    end in
  (* speaking *)
  let w :=
    match speaking b with
    | Some v =>
        let w := set_state (set_isSpeaking v (state w)) w in
        if v then setAnimation "talking" w
        else if negb (isMoving (state w)) && negb (isThinking (state w))
        then setAnimation "idle" w else w
    | None => w
    end in
  (* thinking *)
  let w :=
    match thinking b with
    | Some v =>
        let w := set_state (set_isThinking v (state w)) w in
        if v then setAnimation "thinking" w
        else if negb (isMoving (state w)) && negb (isSpeaking (state w))
        then setAnimation "idle" w else w
    | None => w
    end in
  (* browser *)
  let w :=
    match browser_active b with
    | Some v =>
        let w := set_state (set_browserActive v (state w)) w in
        if v then setAnimation "browsing" w
        else if negb (isMoving (state w)) && negb (isSpeaking (state w))
                && negb (isThinking (state w))
        then setAnimation "idle" w else w
    | None => w
    end in
  (* active model: the empty string is falsy *)
  let w :=
    match current_model b with
    | Some m =>
        if String.eqb m "" then w
        else set_state (set_activeModel m (state w)) w
    | None => w
    end in
  (* animations[0] *)
  match animations b with
  | Some (a :: _) => setAnimation a w
  | _ => w
  end.

(** *** Message router *)

Definition playAudio (w : World) : World :=
  _log "Audio playback requested" w.

(** A JavaScript completion: normal, or an exception thrown with the
    effects performed so far. *)
Inductive Completion :=
| Normal (w : World)
| Throw (w : World).

(** [Object.keys(objects)] throws on [undefined]. *)
Definition updatePhysicsObjects (objects : option (list string)) (w : World)
  : Completion :=
  match objects with
  | Some _ => Normal (_log "Updating physics objects" w)
  | None => Throw w
  end.

(** The body of the [try] block of [handleBackendMessage]. *)
Definition handleBackendMessage_try (data : string) (w : World) : Completion :=
  match JSON_parse data with
  | None => Throw w
  | Some message =>
      let w := _log "Received message from backend:" w in
      match message with
      | JNull => Throw w
      | JMessage m =>
          match msg_type m with
          | Some t =>
              if String.eqb t "STATE_UPDATE" then
                match msg_state m with
                | Some b => Normal (updateStateFromBackend b w)
                | None => Throw w
                end
              else if String.eqb t "AUDIO" then Normal (playAudio w)
              else if String.eqb t "BROWSER_CONTENT" then
                Normal (_log "Received browser content" w)
              else if String.eqb t "PHYSICS_UPDATE" then
                updatePhysicsObjects (msg_objects m) w
              else Normal (_log "Unknown message type" w)
          | None => Normal (_log "Unknown message type" w)
          end
      end
  end.

(** The whole method, as a completion: the [catch] turns every exception
    into a [console.error]. *)
Definition handleBackendMessage_completion (data : string) (w : World)
  : Completion :=
  match handleBackendMessage_try data w with
  | Normal w' => Normal w'
  | Throw w' => Normal (console_error "Error handling backend message:" w')
  end.

Definition handleBackendMessage (data : string) (w : World) : World :=
  match handleBackendMessage_completion data w with
  | Normal w' | Throw w' => w'
  end.

(** *** Idle behaviours *)

Definition idle_animations : list string := ["idle"; "reflection"; "prayer"].

Definition idleRevert (w : World) : World :=
  if negb (isInteracting w) && negb (isMoving (state w))
     && negb (isSpeaking (state w)) && negb (isThinking (state w))
  then setAnimation "idle" w else w.

Definition idleTick (w : World) : World :=
  if negb (isInteracting w) && negb (isMoving (state w))
     && negb (isSpeaking (state w)) && negb (isThinking (state w))
  then
    let (r, w) := random w in
    let i := Z.to_nat (Qfloor (r * 3)) in
    let w := setAnimation (nth i idle_animations "undefined") w in
    snd (setTimeout IdleRevert 5000 w)
  else w.

Definition lookAround (w : World) : World :=
  if negb (isInteracting w) && negb (isMoving (state w)) then
    let (r, w) := random w in
    let angle := (r * Math_PI / 2 - Math_PI / 4)%Q in
    rotateTo [0%Q; Math_sin (angle / 2); 0%Q; Math_cos (angle / 2)] w
  else w.

Definition startIdleBehaviors (w : World) : World :=
  let w := _log "Starting idle behaviors" w in
  let (i, w) := setInterval IdleTick 45000 w in
  let w := set_idleAnimationInterval (Some i) w in
  let (l, w) := setInterval LookAround 25000 w in
  set_lookAroundInterval (Some l) w.

Definition stopIdleBehaviors (w : World) : World :=
  let w := _log "Stopping idle behaviors" w in
  let w :=
    match idleAnimationInterval w with
    | Some i => set_idleAnimationInterval None (clearTimer i w)
    | None => w
    end in
  match lookAroundInterval w with
  | Some l => set_lookAroundInterval None (clearTimer l w)
  | None => w
  end.

(** *** Greeting a nearby player *)

Definition defaultGreetings : list string :=
  ["Peace be with you, my child.";
   "Greetings in this digital realm.";
   "Benedicite - blessings upon you."].

Definition getRandomGreeting (w : World) : string * World :=
  let choices :=
    match character w with
    | Some c => match greetings c with [] => defaultGreetings | g => g end
    | None => defaultGreetings
    end in
  let (r, w) := random w in
  (nth (Z.to_nat (Qfloor (r * inject_Z (Z.of_nat (length choices)))))
       choices "undefined", w).

Definition lookAt (p : Vec) (w : World) : World :=
  let w := _log "Looking at position" w in
  let dx := (nth 0 p 0 - nth 0 (currentPosition (state w)) 0)%Q in
  let dz := (nth 2 p 0 - nth 2 (currentPosition (state w)) 0)%Q in
  let len := Math_sqrt (dx * dx + dz * dz) in
  if negb (Qle_bool len 0) then
    let angle := Math_atan2 (dx / len) (dz / len) in
    let r := [0%Q; Math_sin (angle / 2); 0%Q; Math_cos (angle / 2)] in
    let w := rotateTo r w in
    sendAction "rotate" r w
  else w.

Definition greetingDone (w : World) : World :=
  if negb (isSpeaking (state w)) && negb (isThinking (state w))
  then setAnimation "idle" w else w.

Definition onPlayerNearby (p : Vec) (w : World) : World :=
  let w := _log "Player nearby" w in
  if negb (isInteracting w) then
    let w := lookAt p w in
    let w := setAnimation "blessing" w in
    let (g, w) := getRandomGreeting w in
    let w := sendVoiceInput g w in
    let w := updateInteraction w in
    snd (setTimeout GreetingDone 3000 w)
  else w.

(** *** Start, continued

    [start()] suspends twice: on [loadCharacter()] and on
    [connectToBackend()].  [start_connected] is the rest of the method after
    the second [await]; [ok] is false when the promise was rejected. *)
Definition start_connected (ok : bool) (w : World) : World :=
  let w := if ok then w else console_error "Failed to connect to backend:" w in
  let (m, w) := setInterval Monitor 30000 w in
  let w := set_connectionMonitor (Some m) w in
  let w := if has_chat (world w)
           then set_subscriptions (S (subscriptions w)) w else w in
  let w := startIdleBehaviors w in
  let w := setAnimation "idle" w in
  set_state (set_isConnected true (state w)) w.

(** The frame that awaits the promise of [connectToBackend] runs when the
    promise settles. *)
Definition resume (c : Caller) (ok : bool) (w : World) : World :=
  match c with
  | FromStart => start_connected ok w
  | FromReconnect =>
      if ok then w else console_error "Reconnection attempt failed:" w
  end.

(** [resolve(true)] and [reject(...)] of the promise made for socket [sid]:
    only the first settlement has an effect. *)
Definition settle (sid : nat) (ok : bool) (w : World) : World :=
  match sockets w !! sid with
  | Some k =>
      match promise k with
      | Pending =>
          let w := set_sockets
                     (<[sid := set_promise (if ok then Resolved else Rejected) k]>
                        (sockets w)) w in
          resume (awaitedBy k) ok w
      | _ => w
      end
  | None => w
  end.

(** *** Connection manager *)

Definition is_local (u : URL) : bool :=
  String.eqb (hostname u) "localhost" || String.eqb (hostname u) "127.0.0.1".

(** The part of [connectToBackend] after [await this.checkBackendStatus()],
    given what the probe returned. *)
Definition connectToBackend_probed (c : Caller) (backendAvailable : bool)
  (w : World) : World :=
  if negb backendAvailable then
    let w := _log "Backend server appears to be unavailable" w in
    resume c false w
  else if negb (WebSocket_accepts (popeBackendUrl (config w))) then
    resume c false w
  else
    let sid := next_id w in
    let w := set_next_id (S sid) w in
    let (t, w) := setTimeout (HandshakeTimeout sid) 30000 w in
    let w := set_sockets
               (<[sid := {| readyState := CONNECTING; sent := [];
                            handshakeTimer := t; promise := Pending;
                            awaitedBy := c |}]> (sockets w)) w in
    set_socket (Some sid) w.

(** [checkBackendStatus] up to its [await fetch(...)]: the answer at once
    for a remote or unparsable target, or a probe in flight. *)
Definition checkBackendStatus (c : Caller) (w : World) : option bool * World :=
  match URL_parse (popeBackendUrl (config w)) with
  | None => (Some false, _log "Error checking backend status" w)
  | Some u =>
      if is_local u then
        let w := _log "Checking backend status" w in
        let fid := next_id w in
        let w := set_next_id (S fid) w in
        let (t, w) := setTimeout (ProbeAbort fid) 3000 w in
        (None, set_fetches (<[fid := {| abortTimer := t; fetchCaller := c |}]>
                              (fetches w)) w)
      else (Some true, w)
  end.

Definition connectToBackend (c : Caller) (w : World) : World :=
  let w := _log "Connecting to Pope backend" w in
  let n := match connectionAttempts w with Some n => n | None => 0%Z end in
  let w := set_connectionAttempts (Some (n + 1)%Z) w in
  match checkBackendStatus c w with
  | (Some backendAvailable, w) => connectToBackend_probed c backendAvailable w
  | (None, w) => w
  end.

(** The probe settles: [clearTimeout(timeoutId)], then [response.ok], or
    [false] from the [catch]. *)
Definition probeSettled (fid : nat) (o : FetchOutcome) (w : World) : World :=
  match fetches w !! fid with
  | Some f =>
      let w := set_fetches (delete fid (fetches w)) w in
      let w := clearTimer (abortTimer f) w in
      match o with
      | ResponseOk => connectToBackend_probed (fetchCaller f) true w
      | ResponseNotOk => connectToBackend_probed (fetchCaller f) false w
      | FetchFailed =>
          connectToBackend_probed (fetchCaller f) false
            (_log "Backend status check failed" w)
      end
  | None => w
  end.

(** *** Backoff policy *)

Definition MAX_ATTEMPTS : Z := 10.
Definition baseDelay : Q := 5000.

(** [Math.min(60000, baseDelay * Math.pow(2, attempts - 1)
                      * (0.9 + Math.random() * 0.2))] *)
Definition backoffTime (attempts : Z) (r : Q) : Q :=
  Qmin 60000 (baseDelay * Qpower 2 (attempts - 1) * (0.9 + r * 0.2)).

Definition scheduleReconnect (w : World) : World :=
  let n := match connectionAttempts w with Some n => n | None => 0%Z end in
  let w := set_connectionAttempts (Some n) w in
  if (MAX_ATTEMPTS <=? n)%Z then
    console_error "Maximum reconnection attempts (10) reached. Giving up." w
  else
    let (r, w) := random w in
    let w := _log "Scheduling reconnection attempt" w in
    snd (setTimeout Reconnect (backoffTime n r) w).

Definition reconnect (w : World) : World :=
  if isBackendConnected (state w) then w
  else
    let w := _log "Attempting reconnection" w in
    connectToBackend FromReconnect w.

(** *** Socket handlers *)

Definition onclose (w : World) : World :=
  let w := _log "Disconnected from Pope backend" w in
  let w := set_state (set_isBackendConnected false (state w)) w in
  scheduleReconnect w.

Definition onerror (w : World) : World :=
  let w := console_error "WebSocket error:" w in
  set_state (set_isBackendConnected false (state w)) w.

Definition onopen (sid : nat) (w : World) : World :=
  let w := match sockets w !! sid with
           | Some k => clearTimer (handshakeTimer k) w
           | None => w
           end in
  let w := _log "Connected to Pope backend" w in
  let w := set_state (set_isBackendConnected true (state w)) w in
  let w := set_connectionAttempts (Some 0%Z) w in
  let w := sendStateToBackend w in
  settle sid true w.

Definition handshakeTimeout (sid : nat) (w : World) : World :=
  if isBackendConnected (state w) then w
  else
    let w := _log "Connection to backend timed out after 30 seconds" w in
    let w := match socket w with
             | Some cur => ws_close cur w
             | None => w
             end in
    settle sid false w.

(** *** Start and stop *)

Definition start (w : World) : World :=
  let w := _log "Starting Pope agent" w in
  let w := _log "Loading character" w in
  set_loading (S (loading w)) w.

Definition fallbackCharacter : Character :=
  {| name := "Pope"; greetings := [] |}.

(** [loadCharacter] returns, and [start] runs on to its second [await]. *)
Definition start_loaded (file : option Character) (w : World) : World :=
  match loading w with
  | O => w
  | S n =>
      let w := set_loading n w in
      let w :=
        match file with
        | Some c => _log "Character loaded successfully" (set_character (Some c) w)
        | None =>
            set_character (Some fallbackCharacter)
              (console_error "Error loading character definition:" w)
        end in
      let w := set_connectionAttempts (Some 0%Z) w in
      connectToBackend FromStart w
  end.

Definition stop (w : World) : World :=
  let w := _log "Stopping Pope agent" w in
  let w := stopIdleBehaviors w in
  let w :=
    match connectionMonitor w with
    | Some m => set_connectionMonitor None (clearTimer m w)
    | None => w
    end in
  let w :=
    match socket w with
    | Some sid => set_socket None (ws_close sid w)
    | None => w
    end in
  set_state (set_isConnected false (state w)) w.

(** *** The event loop *)

Definition monitor (w : World) : World :=
  if negb (isBackendConnected (state w)) && isConnected (state w) then
    let w := _log "Connection monitor: Backend connection lost, attempting reconnect..." w in
    scheduleReconnect w
  else w.

Definition runTask (t : TimerTask) (w : World) : World :=
  match t with
  | ProbeAbort fid => probeSettled fid FetchFailed w
  | HandshakeTimeout sid => handshakeTimeout sid w
  | Reconnect => reconnect w
  | MoveDone => moveDone w
  | GreetingDone => greetingDone w
  | IdleTick => idleTick w
  | IdleRevert => idleRevert w
  | LookAround => lookAround w
  | Monitor => monitor w
  end.

(** A timer fires once it is due; an interval is armed again, a timeout
    leaves the table. *)
Definition timerFired (id : nat) (w : World) : World :=
  match timers w !! id with
  | Some t =>
      if Qle_bool (due t) (now w) then
        let w :=
          match period t with
          | Some p =>
              set_timers (<[id := {| task := task t; due := now w + p;
                                     period := Some p |}]> (timers w)) w
          | None => clearTimer id w
          end in
        runTask (task t) w
      else w
  | None => w
  end.

Definition set_ready (sid : nat) (r : ReadyState) (w : World) : World :=
  set_sockets (alter (set_readyState r) sid (sockets w)) w.

(** Socket events as the ws library delivers them: [open] to a CONNECTING
    socket, [error] and [close] to a socket not yet CLOSED, [message] to an
    OPEN or CLOSING one. *)
Definition socketOpen (sid : nat) (w : World) : World :=
  match readyState <$> sockets w !! sid with
  | Some CONNECTING => onopen sid (set_ready sid OPEN w)
  | _ => w
  end.

Definition socketError (sid : nat) (w : World) : World :=
  match readyState <$> sockets w !! sid with
  | Some CLOSED | None => w
  | Some _ => onerror (set_ready sid CLOSING w)
  end.

Definition socketClose (sid : nat) (w : World) : World :=
  match readyState <$> sockets w !! sid with
  | Some CLOSED | None => w
  | Some _ => onclose (set_ready sid CLOSED w)
  end.

Definition socketMessage (sid : nat) (data : string) (w : World) : World :=
  match readyState <$> sockets w !! sid with
  | Some OPEN | Some CLOSING => handleBackendMessage data w
  | _ => w
  end.

Inductive Event :=
| CallStart
| CallStop
| FileRead (file : option Character)
| ProbeSettled (fid : nat) (o : FetchOutcome)
| TimerFired (id : nat)
| SocketOpen (sid : nat)
| SocketError (sid : nat)
| SocketClose (sid : nat)
| SocketMessage (sid : nat) (data : string)
| Chat (m : ChatMessage)
| PlayerNearby (p : Vec)
| Elapse (dt : Q).

Definition step (e : Event) (w : World) : World :=
  match e with
  | CallStart => start w
  | CallStop => stop w
  | FileRead file => start_loaded file w
  | ProbeSettled fid o => probeSettled fid o w
  | TimerFired id => timerFired id w
  | SocketOpen sid => socketOpen sid w
  | SocketError sid => socketError sid w
  | SocketClose sid => socketClose sid w
  | SocketMessage sid data => socketMessage sid data w
  | Chat m => Nat.iter (subscriptions w) (handleIncomingChat m) w
  | PlayerNearby p => onPlayerNearby p w
  | Elapse dt => if Qle_bool 0 dt then set_now (now w + dt) w else w
  end.

Definition run (es : list Event) (w : World) : World :=
  fold_left (fun w e => step e w) es w.

(** The constructor. *)
Definition initialState (t0 : Q) : AgentState :=
  {| isConnected := false; isBackendConnected := false; isMoving := false;
     currentAnimation := "idle"; currentPosition := [0; 0; 0]%Q;
     currentRotation := [0; 0; 0; 1]%Q; activeModel := "anthropic";
     isSpeaking := false; isThinking := false; browserActive := false;
     lastInteraction := t0; chatHistory := [] |}.

Definition new_PopeAgent (h : Host) (c : Config) (t0 : Q) : World :=
  _log "Pope agent initialized with config:"
    {| world := h; config := c; state := initialState t0; socket := None;
       connectionAttempts := None; idleAnimationInterval := None;
       lookAroundInterval := None; connectionMonitor := None;
       character := None; sockets := ∅; timers := ∅; fetches := ∅;
       loading := 0; subscriptions := 0; next_id := 0; now := t0; draws := 0;
       console := []; actuation := [] |}.

Definition reachable (w : World) : Prop :=
  exists h c t0 es, w = run es (new_PopeAgent h c t0).

End PopeAgent.

(** ** Scenario data

    A concrete platform and agent for the closed examples below: a local
    and a remote target, a jitter draw of one half, and [JSON.parse] on
    the two payloads the examples use.  The [Math] functions are rough
    rational stand-ins; no statement below depends on their values. *)

Definition quote : string := String (Ascii.ascii_of_nat 34) EmptyString.

(** The text [{"type":"PING"}]. *)
Definition ping_payload : string :=
  "{" ++ quote ++ "type" ++ quote ++ ":" ++ quote ++ "PING" ++ quote ++ "}".

Definition ping_message : Message :=
  {| msg_type := Some "PING"; msg_state := None; msg_data := None;
     msg_objects := None |}.

Definition scenario_platform : Platform := {|
  JSON_parse := fun s =>
    if String.eqb s ping_payload then Some (JMessage ping_message)
    else if String.eqb s "null" then Some JNull
    else None;
  URL_parse := fun s =>
    if String.eqb s "ws://localhost:8765" then
      Some {| protocol := "ws:"; hostname := "localhost"; port := "8765" |}
    else if String.eqb s "ws://pope.example:8765" then
      Some {| protocol := "ws:"; hostname := "pope.example"; port := "8765" |}
    else None;
  WebSocket_accepts := fun _ => true;
  Math_random := fun _ => (1 # 2)%Q;
  Math_sin := fun x => x;
  Math_cos := fun x => (1 - x * x / 2)%Q;
  Math_sqrt := fun x => x;
  Math_atan2 := fun _ _ => 0%Q;
  Math_PI := (355 # 113)%Q
|}.

Definition scenario_host : Host :=
  {| has_chat := true; player_id := Some "pope" |}.

(** The default configuration: a local backend, logging off. *)
Definition local_config : Config :=
  {| popeBackendUrl := "ws://localhost:8765"; debug := false |}.

Definition remote_config : Config :=
  {| popeBackendUrl := "ws://pope.example:8765"; debug := false |}.

Definition local_agent : World :=
  new_PopeAgent scenario_host local_config 0.

Definition remote_agent : World :=
  new_PopeAgent scenario_host remote_config 0.

(** A partial update with no field. *)
Definition no_update : BackendState :=
  {| position := None; rotation := None; speaking := None; thinking := None;
     browser_active := None; current_model := None; animations := None |}.

(** ** Properties *)

Section Properties.

Context `{Platform}.

(** *** Backoff policy *)

Lemma backoff_window (n : Z) (r : Q) :
  (1 <= n <= 10)%Z -> (0 <= r)%Q -> (r <= 1)%Q ->
  (0.9 * Qmin 60000 (5000 * Qpower 2 (n - 1)) <= backoffTime n r)%Q /\
  (backoffTime n r <= 1.1 * Qmin 60000 (5000 * Qpower 2 (n - 1)))%Q.
Proof.
  intros Hn H0 H1. unfold backoffTime, baseDelay.
  assert (Hc : (n = 1 \/ n = 2 \/ n = 3 \/ n = 4 \/ n = 5 \/ n = 6 \/ n = 7
                \/ n = 8 \/ n = 9 \/ n = 10)%Z) by lia.
  repeat (destruct Hc as [Hc|Hc]); subst n.
  all: match goal with |- context [Qpower 2 ?k] =>
         let v := eval vm_compute in (Qpower 2 k) in
         change (Qpower 2 k) with v end.
  all: split; apply Q.min_case_strong; try (intros ? ? ->; trivial); intros;
       try (apply Q.min_case_strong; try (intros ? ? ->; trivial); intros); lra.
Qed.

Lemma scheduleReconnect_timers (w : World) (n : Z) :
  connectionAttempts w = Some n ->
  timers (scheduleReconnect w) =
    if (n <? 10)%Z
    then <[next_id w := {| task := Reconnect;
                           due := now w + backoffTime n (Math_random (draws w));
                           period := None |}]> (timers w)
    else timers w.
Proof.
  intros Hn. unfold scheduleReconnect, MAX_ATTEMPTS. rewrite Hn.
  destruct (Z.leb_spec 10 n), (Z.ltb_spec n 10); try lia; try reflexivity.
  unfold _log; simpl. destruct (debug (config w)); reflexivity.
Qed.

(** C3. For an attempt number n in 1..10 and a jitter draw r in [0,1] (the
    factor 0.9 + 0.2 r lies in [0.9, 1.1]) the retry delay lies within
    [0.9, 1.1] * min(60000, 5000 * 2^(n-1)) milliseconds; scheduleReconnect
    arms a retry timer with that delay when the attempt count is below 10
    and arms nothing once the count has reached 10. *)
Theorem C3_backoff_policy (w : World) (n : Z) (r : Q) :
  (1 <= n <= 10)%Z -> (0 <= r)%Q -> (r <= 1)%Q ->
  connectionAttempts w = Some n -> Math_random (draws w) = r ->
  ((0.9 * Qmin 60000 (5000 * Qpower 2 (n - 1)) <= backoffTime n r)%Q /\
   (backoffTime n r <= 1.1 * Qmin 60000 (5000 * Qpower 2 (n - 1)))%Q) /\
  ((n < 10)%Z ->
     timers (scheduleReconnect w) =
       <[next_id w := {| task := Reconnect; due := now w + backoffTime n r;
                         period := None |}]> (timers w)) /\
  ((10 <= n)%Z -> timers (scheduleReconnect w) = timers w).
Proof.
  intros Hn H0 H1 Hw Hr. split; [by apply backoff_window|].
  rewrite (scheduleReconnect_timers w n Hw), Hr.
  split; intros Hlt; destruct (Z.ltb_spec n 10); (reflexivity || lia).
Qed.

(** Beyond the range of the claim: no retry is armed for any count from 10
    on, and one is armed for every count below (zero included, which is the
    count right after a successful handshake). *)
Lemma shouldRetry_all (w : World) (n : Z) :
  connectionAttempts w = Some n ->
  (timers (scheduleReconnect w) = timers w <-> (10 <= n)%Z \/
     timers w !! next_id w = Some {| task := Reconnect;
        due := now w + backoffTime n (Math_random (draws w)); period := None |}).
Proof.
  intros Hn. rewrite (scheduleReconnect_timers w n Hn).
  destruct (Z.ltb_spec n 10); split; try (intros; reflexivity || (left; lia)).
  - intros E. right. rewrite <- E. apply lookup_insert_eq.
  - intros [?|E]; [lia|]. by apply insert_id.
Qed.

(** *** Frame lemmas: what the building blocks leave alone

    [_log] only ever touches the console, and [setAnimation] only the
    animation name, the console and the actuation trace.  The equations are
    collected in the rewrite base [frame], so that a projection can be
    pushed through a method body without a case split per call. *)

Ltac unfold_prims :=
  unfold console_log, console_error, actuate, setTimeout, setInterval,
    clearTimer, random in *.

Lemma world_log m w : world (_log m w) = world w.
Proof. unfold _log. by case_match. Qed.
Lemma config_log m w : config (_log m w) = config w.
Proof. unfold _log. by case_match. Qed.
Lemma state_log m w : state (_log m w) = state w.
Proof. unfold _log. by case_match. Qed.
Lemma socket_log m w : socket (_log m w) = socket w.
Proof. unfold _log. by case_match. Qed.
Lemma connectionAttempts_log m w : connectionAttempts (_log m w) = connectionAttempts w.
Proof. unfold _log. by case_match. Qed.
Lemma idleAnimationInterval_log m w : idleAnimationInterval (_log m w) = idleAnimationInterval w.
Proof. unfold _log. by case_match. Qed.
Lemma lookAroundInterval_log m w : lookAroundInterval (_log m w) = lookAroundInterval w.
Proof. unfold _log. by case_match. Qed.
Lemma connectionMonitor_log m w : connectionMonitor (_log m w) = connectionMonitor w.
Proof. unfold _log. by case_match. Qed.
Lemma character_log m w : character (_log m w) = character w.
Proof. unfold _log. by case_match. Qed.
Lemma sockets_log m w : sockets (_log m w) = sockets w.
Proof. unfold _log. by case_match. Qed.
Lemma timers_log m w : timers (_log m w) = timers w.
Proof. unfold _log. by case_match. Qed.
Lemma fetches_log m w : fetches (_log m w) = fetches w.
Proof. unfold _log. by case_match. Qed.
Lemma loading_log m w : loading (_log m w) = loading w.
Proof. unfold _log. by case_match. Qed.
Lemma subscriptions_log m w : subscriptions (_log m w) = subscriptions w.
Proof. unfold _log. by case_match. Qed.
Lemma next_id_log m w : next_id (_log m w) = next_id w.
Proof. unfold _log. by case_match. Qed.
Lemma now_log m w : now (_log m w) = now w.
Proof. unfold _log. by case_match. Qed.
Lemma draws_log m w : draws (_log m w) = draws w.
Proof. unfold _log. by case_match. Qed.
Lemma actuation_log m w : actuation (_log m w) = actuation w.
Proof. unfold _log. by case_match. Qed.

(** The agent state after [setAnimation]: the new name, whether or not it
    differs from the old one. *)
Lemma state_setAnimation a w :
  state (setAnimation a w) = set_currentAnimation a (state w).
Proof.
  unfold setAnimation. destruct (String.eqb_spec (currentAnimation (state w)) a).
  - subst a. by destruct (state w).
  - unfold _log. by case_match.
Qed.
Lemma world_setAnimation a w : world (setAnimation a w) = world w.
Proof. unfold setAnimation, _log. by repeat case_match. Qed.
Lemma config_setAnimation a w : config (setAnimation a w) = config w.
Proof. unfold setAnimation, _log. by repeat case_match. Qed.
Lemma socket_setAnimation a w : socket (setAnimation a w) = socket w.
Proof. unfold setAnimation, _log. by repeat case_match. Qed.
Lemma connectionAttempts_setAnimation a w : connectionAttempts (setAnimation a w) = connectionAttempts w.
Proof. unfold setAnimation, _log. by repeat case_match. Qed.
Lemma idleAnimationInterval_setAnimation a w : idleAnimationInterval (setAnimation a w) = idleAnimationInterval w.
Proof. unfold setAnimation, _log. by repeat case_match. Qed.
Lemma lookAroundInterval_setAnimation a w : lookAroundInterval (setAnimation a w) = lookAroundInterval w.
Proof. unfold setAnimation, _log. by repeat case_match. Qed.
Lemma connectionMonitor_setAnimation a w : connectionMonitor (setAnimation a w) = connectionMonitor w.
Proof. unfold setAnimation, _log. by repeat case_match. Qed.
Lemma character_setAnimation a w : character (setAnimation a w) = character w.
Proof. unfold setAnimation, _log. by repeat case_match. Qed.
Lemma sockets_setAnimation a w : sockets (setAnimation a w) = sockets w.
Proof. unfold setAnimation, _log. by repeat case_match. Qed.
Lemma timers_setAnimation a w : timers (setAnimation a w) = timers w.
Proof. unfold setAnimation, _log. by repeat case_match. Qed.
Lemma fetches_setAnimation a w : fetches (setAnimation a w) = fetches w.
Proof. unfold setAnimation, _log. by repeat case_match. Qed.
Lemma loading_setAnimation a w : loading (setAnimation a w) = loading w.
Proof. unfold setAnimation, _log. by repeat case_match. Qed.
Lemma subscriptions_setAnimation a w : subscriptions (setAnimation a w) = subscriptions w.
Proof. unfold setAnimation, _log. by repeat case_match. Qed.
Lemma next_id_setAnimation a w : next_id (setAnimation a w) = next_id w.
Proof. unfold setAnimation, _log. by repeat case_match. Qed.
Lemma now_setAnimation a w : now (setAnimation a w) = now w.
Proof. unfold setAnimation, _log. by repeat case_match. Qed.
Lemma draws_setAnimation a w : draws (setAnimation a w) = draws w.
Proof. unfold setAnimation, _log. by repeat case_match. Qed.

Create HintDb frame.

#[local] Hint Rewrite
  world_log config_log state_log socket_log connectionAttempts_log
  idleAnimationInterval_log lookAroundInterval_log connectionMonitor_log
  character_log sockets_log timers_log fetches_log loading_log
  subscriptions_log next_id_log now_log draws_log actuation_log
  state_setAnimation world_setAnimation config_setAnimation
  socket_setAnimation connectionAttempts_setAnimation
  idleAnimationInterval_setAnimation lookAroundInterval_setAnimation
  connectionMonitor_setAnimation character_setAnimation
  sockets_setAnimation timers_setAnimation fetches_setAnimation
  loading_setAnimation subscriptions_setAnimation next_id_setAnimation
  now_setAnimation draws_setAnimation : frame.

Ltac frame :=
  intros; unfold_prims;
  repeat (simpl; autorewrite with frame; try case_match);
  simpl in *; autorewrite with frame; repeat split;
  try reflexivity; try congruence.

Lemma log_open_socket m w : open_socket (_log m w) = open_socket w.
Proof. unfold open_socket. by rewrite socket_log, sockets_log. Qed.

(** *** Preservation through the methods

    Every method is built from a fixed set of primitive updates.  A
    predicate on worlds that each primitive preserves is therefore
    preserved by every method; [Local] lists the primitives of the methods
    that stay clear of the channel, [Closed] adds those of the rest.  The one update
    left out is [isConnected := false], which only [stop] performs. *)

Definition attempts (w : World) : Z :=
  match connectionAttempts w with Some n => n | None => 0%Z end.

Record Local (P : World -> Prop) : Prop := {
  cl_log : forall m w, P w -> P (_log m w);
  cl_error : forall m w, P w -> P (console_error m w);
  cl_actuate : forall a w, P w -> P (actuate a w);
  cl_random : forall w, P w -> P (snd (random w));
  cl_setTimeout : forall t d w, P w -> P (snd (setTimeout t d w));
  cl_setInterval : forall t p w, P w -> P (snd (setInterval t p w));
  cl_clearTimer : forall id w, P w -> P (clearTimer id w);
  cl_rearm : forall id t p w,
    timers w !! id = Some t ->
    P w -> P (set_timers (<[id := {| task := task t; due := now w + p;
                                     period := Some p |}]> (timers w)) w);
  cl_animation : forall a w,
    P w -> P (set_state (set_currentAnimation a (state w)) w);
  cl_rotation : forall r w,
    P w -> P (set_state (set_currentRotation r (state w)) w);
  cl_position : forall p w,
    P w -> P (set_state (set_currentPosition p (state w)) w);
  cl_moving : forall v w, P w -> P (set_state (set_isMoving v (state w)) w);
  cl_speaking : forall v w, P w -> P (set_state (set_isSpeaking v (state w)) w);
  cl_thinking : forall v w, P w -> P (set_state (set_isThinking v (state w)) w);
  cl_browser : forall v w,
    P w -> P (set_state (set_browserActive v (state w)) w);
  cl_model : forall m w, P w -> P (set_state (set_activeModel m (state w)) w);
  cl_connected : forall w,
    P w -> P (set_state (set_isConnected true (state w)) w);
  cl_interaction : forall w,
    P w -> P (set_state (set_lastInteraction (now w) (state w)) w);
  cl_idleHandle : forall v w, P w -> P (set_idleAnimationInterval v w);
  cl_lookHandle : forall v w, P w -> P (set_lookAroundInterval v w);
  cl_monitorHandle : forall v w, P w -> P (set_connectionMonitor v w);
  cl_subscribe : forall w, P w -> P (set_subscriptions (S (subscriptions w)) w);
  cl_attempts_keep : forall w, P w -> P (set_connectionAttempts (Some (attempts w)) w)
}.

Record Closed (P : World -> Prop) : Prop := {
  cl_local : Local P;
  cl_backend : forall v w,
    P w -> P (set_state (set_isBackendConnected v (state w)) w);
  cl_chat : forall txt w,
    P w ->
    P (set_state
         (set_chatHistory
            (chatHistory (state w)
               ++ [{| sender := "user"; text := txt; timestamp := now w |}])
            (state w)) w);
  cl_send : forall sid f w, P w -> P (ws_send sid f w);
  cl_close : forall sid w, P w -> P (ws_close sid w);
  cl_ready : forall sid r w, P w -> P (set_ready sid r w);
  cl_settle : forall sid k ps w,
    sockets w !! sid = Some k ->
    P w -> P (set_sockets (<[sid := set_promise ps k]> (sockets w)) w);
  cl_new_socket : forall sid t c w,
    P w ->
    P (set_sockets (<[sid := {| readyState := CONNECTING; sent := [];
                                handshakeTimer := t; promise := Pending;
                                awaitedBy := c |}]> (sockets w)) w);
  cl_socket : forall v w, P w -> P (set_socket v w);
  cl_next_id : forall w, P w -> P (set_next_id (S (next_id w)) w);
  cl_attempts_next : forall w,
    P w -> P (set_connectionAttempts (Some (attempts w + 1)%Z) w);
  cl_attempts_reset : forall w, P w -> P (set_connectionAttempts (Some 0%Z) w);
  cl_fetch_new : forall fid f w,
    P w -> P (set_fetches (<[fid := f]> (fetches w)) w);
  cl_fetch_done : forall fid w, P w -> P (set_fetches (delete fid (fetches w)) w);
  cl_loading : forall n w, P w -> P (set_loading n w);
  cl_character : forall c w, P w -> P (set_character (Some c) w);
  cl_elapse : forall dt w, (0 <= dt)%Q -> P w -> P (set_now (now w + dt) w)
}.

(** Symbolic execution of a method body: each [let] is run in turn and the
    world it yields is kept only through the fact that [P] holds of it. *)
Ltac pres_step P tac :=
  lazymatch goal with
  | |- P ?t =>
    lazymatch t with
    | (let x := ?e in @?b x) =>
        lazymatch type of e with
        | World =>
            let Hz := fresh "Hw" in let z := fresh "w" in
            assert (Hz : P e) by tac;
            revert Hz; generalize e; intros z Hz; change (P (b z)); cbv beta
        | _ => change (P (b e)); cbv beta
        end
    | (match ?o with _ => _ end) =>
        lazymatch type of o with
        | (_ * World)%type =>
            let Hz := fresh "Hw" in let z := fresh "w" in let x := fresh "x" in
            assert (Hz : P (snd o)) by tac;
            revert Hz; rewrite (surjective_pairing o);
            generalize (snd o); generalize (fst o); intros x z Hz; cbv iota in Hz
        | _ => destruct o eqn:?
        end
    end
  end.

Create HintDb pres.

Ltac pres_go P :=
  first [ solve [eauto 4 with pres]
        | pres_step P ltac:(pres_go P); pres_go P ].

Section Preservation.

Context (P : World -> Prop).

Section LocalMethods.

Context (HL : Local P).

Lemma pres_setAnimation a w : P w -> P (setAnimation a w).
Proof. intros Hw. destruct HL. cbv beta delta [setAnimation]. pres_go P. Qed.
#[local] Hint Resolve pres_setAnimation : pres.

Lemma pres_rotateTo r w : P w -> P (rotateTo r w).
Proof. intros Hw. destruct HL. cbv beta delta [rotateTo]. pres_go P. Qed.
#[local] Hint Resolve pres_rotateTo : pres.

Lemma pres_moveToPosition p w : P w -> P (moveToPosition p w).
Proof. intros Hw. destruct HL. cbv beta delta [moveToPosition]. pres_go P. Qed.
#[local] Hint Resolve pres_moveToPosition : pres.

Lemma pres_moveDone w : P w -> P (moveDone w).
Proof. intros Hw. destruct HL. cbv beta delta [moveDone]. pres_go P. Qed.
#[local] Hint Resolve pres_moveDone : pres.

Lemma pres_updateStateFromBackend b w : P w -> P (updateStateFromBackend b w).
Proof. intros Hw. destruct HL. cbv beta delta [updateStateFromBackend]. pres_go P. Qed.
#[local] Hint Resolve pres_updateStateFromBackend : pres.

Lemma pres_handleBackendMessage data w : P w -> P (handleBackendMessage data w).
Proof.
  intros Hw. pose proof (cl_log P HL) as Hlog. pose proof (cl_error P HL) as Herr.
  unfold handleBackendMessage, handleBackendMessage_completion,
    handleBackendMessage_try, updatePhysicsObjects, playAudio.
  destruct (JSON_parse data) as [[|m]|]; auto.
  destruct (msg_type m) as [t|]; auto.
  destruct (String.eqb t "STATE_UPDATE").
  { destruct (msg_state m); auto with pres. }
  destruct (String.eqb t "AUDIO"); auto.
  destruct (String.eqb t "BROWSER_CONTENT"); auto.
  destruct (String.eqb t "PHYSICS_UPDATE"); auto.
  destruct (msg_objects m); auto.
Qed.
#[local] Hint Resolve pres_handleBackendMessage : pres.

Lemma pres_idleRevert w : P w -> P (idleRevert w).
Proof. intros Hw. destruct HL. cbv beta delta [idleRevert]. pres_go P. Qed.
#[local] Hint Resolve pres_idleRevert : pres.

Lemma pres_idleTick w : P w -> P (idleTick w).
Proof. intros Hw. destruct HL. cbv beta delta [idleTick]. pres_go P. Qed.
#[local] Hint Resolve pres_idleTick : pres.

Lemma pres_lookAround w : P w -> P (lookAround w).
Proof. intros Hw. destruct HL. cbv beta delta [lookAround]. pres_go P. Qed.
#[local] Hint Resolve pres_lookAround : pres.

Lemma pres_startIdleBehaviors w : P w -> P (startIdleBehaviors w).
Proof. intros Hw. destruct HL. cbv beta delta [startIdleBehaviors]. pres_go P. Qed.
#[local] Hint Resolve pres_startIdleBehaviors : pres.

Lemma pres_stopIdleBehaviors w : P w -> P (stopIdleBehaviors w).
Proof. intros Hw. destruct HL. cbv beta delta [stopIdleBehaviors]. pres_go P. Qed.
#[local] Hint Resolve pres_stopIdleBehaviors : pres.

Lemma pres_greetingDone w : P w -> P (greetingDone w).
Proof. intros Hw. destruct HL. cbv beta delta [greetingDone]. pres_go P. Qed.
#[local] Hint Resolve pres_greetingDone : pres.

Lemma pres_start_connected ok w : P w -> P (start_connected ok w).
Proof. intros Hw. destruct HL. cbv beta delta [start_connected]. pres_go P. Qed.
#[local] Hint Resolve pres_start_connected : pres.

Lemma pres_resume c ok w : P w -> P (resume c ok w).
Proof. intros Hw. destruct HL. cbv beta delta [resume]. pres_go P. Qed.
#[local] Hint Resolve pres_resume : pres.

Lemma pres_scheduleReconnect w : P w -> P (scheduleReconnect w).
Proof. intros Hw. destruct HL. cbv beta delta [scheduleReconnect]. pres_go P. Qed.
#[local] Hint Resolve pres_scheduleReconnect : pres.

Lemma pres_monitor w : P w -> P (monitor w).
Proof. intros Hw. destruct HL. cbv beta delta [monitor]. pres_go P. Qed.
#[local] Hint Resolve pres_monitor : pres.

Lemma pres_getRandomGreeting w : P w -> P (snd (getRandomGreeting w)).
Proof.
  intros Hw. unfold getRandomGreeting.
  pose proof (cl_random P HL w Hw) as Hr.
  destruct (random w) as [r z]. exact Hr.
Qed.
#[local] Hint Resolve pres_getRandomGreeting : pres.

End LocalMethods.

Section AllMethods.

Context (HC : Closed P).

#[local] Hint Resolve pres_setAnimation pres_rotateTo pres_moveToPosition
  pres_moveDone pres_updateStateFromBackend pres_handleBackendMessage
  pres_idleRevert pres_idleTick pres_lookAround pres_startIdleBehaviors
  pres_stopIdleBehaviors pres_greetingDone pres_start_connected pres_resume
  pres_scheduleReconnect pres_monitor
  pres_getRandomGreeting : pres.

Lemma pres_onclose w : P w -> P (onclose w).
Proof.
  intros Hw. pose proof (cl_local P HC) as HL. destruct HC, HL.
  cbv beta delta [onclose]. pres_go P.
Qed.
#[local] Hint Resolve pres_onclose : pres.

Lemma pres_onerror w : P w -> P (onerror w).
Proof.
  intros Hw. pose proof (cl_local P HC) as HL. destruct HC, HL.
  cbv beta delta [onerror]. pres_go P.
Qed.
#[local] Hint Resolve pres_onerror : pres.

Lemma pres_sendStateToBackend w : P w -> P (sendStateToBackend w).
Proof.
  intros Hw. pose proof (cl_local P HC) as HL. destruct HC, HL.
  cbv beta delta [sendStateToBackend]. pres_go P.
Qed.
#[local] Hint Resolve pres_sendStateToBackend : pres.

Lemma pres_sendVoiceInput txt w : P w -> P (sendVoiceInput txt w).
Proof.
  intros Hw. pose proof (cl_local P HC) as HL. destruct HC, HL.
  cbv beta delta [sendVoiceInput]. pres_go P.
Qed.
#[local] Hint Resolve pres_sendVoiceInput : pres.

Lemma pres_sendAction a r w : P w -> P (sendAction a r w).
Proof.
  intros Hw. pose proof (cl_local P HC) as HL. destruct HC, HL.
  cbv beta delta [sendAction]. pres_go P.
Qed.
#[local] Hint Resolve pres_sendAction : pres.

Lemma pres_updateInteraction w : P w -> P (updateInteraction w).
Proof.
  intros Hw. pose proof (cl_local P HC) as HL. destruct HC, HL.
  cbv beta delta [updateInteraction]. pres_go P.
Qed.
#[local] Hint Resolve pres_updateInteraction : pres.

Lemma pres_handleIncomingChat m w : P w -> P (handleIncomingChat m w).
Proof.
  intros Hw. pose proof (cl_local P HC) as HL. destruct HC, HL.
  cbv beta delta [handleIncomingChat]. pres_go P.
Qed.
#[local] Hint Resolve pres_handleIncomingChat : pres.

Lemma pres_lookAt p w : P w -> P (lookAt p w).
Proof.
  intros Hw. pose proof (cl_local P HC) as HL. destruct HC, HL.
  cbv beta delta [lookAt]. pres_go P.
Qed.
#[local] Hint Resolve pres_lookAt : pres.

Lemma pres_onPlayerNearby p w : P w -> P (onPlayerNearby p w).
Proof.
  intros Hw. pose proof (cl_local P HC) as HL. destruct HC, HL.
  cbv beta delta [onPlayerNearby]. pres_go P.
Qed.
#[local] Hint Resolve pres_onPlayerNearby : pres.

Lemma pres_settle sid ok w : P w -> P (settle sid ok w).
Proof.
  intros Hw. pose proof (cl_local P HC) as HL. destruct HC, HL.
  cbv beta delta [settle]. pres_go P.
Qed.
#[local] Hint Resolve pres_settle : pres.

Lemma pres_connectToBackend_probed c ok w : P w -> P (connectToBackend_probed c ok w).
Proof.
  intros Hw. pose proof (cl_local P HC) as HL. destruct HC, HL.
  cbv beta delta [connectToBackend_probed]. pres_go P.
Qed.
#[local] Hint Resolve pres_connectToBackend_probed : pres.

Lemma pres_checkBackendStatus c w : P w -> P (snd (checkBackendStatus c w)).
Proof.
  intros Hw. pose proof (cl_local P HC) as HL.
  unfold checkBackendStatus.
  destruct (URL_parse _) as [u|]; [destruct (is_local u)|]; cbv zeta.
  - set (w1 := set_next_id _ _).
    assert (H1 : P w1) by (apply (cl_next_id P HC), (cl_log P HL), Hw).
    pose proof (cl_setTimeout P HL (ProbeAbort (next_id (_log "Checking backend status" w)))
                  3000 w1 H1) as H2.
    destruct (setTimeout _ _ w1) as [t w2]. simpl in *.
    by apply (cl_fetch_new P HC).
  - exact Hw.
  - by apply (cl_log P HL).
Qed.
#[local] Hint Resolve pres_checkBackendStatus : pres.

Lemma pres_connectToBackend c w : P w -> P (connectToBackend c w).
Proof.
  intros Hw. pose proof (cl_local P HC) as HL. destruct HC, HL.
  cbv beta delta [connectToBackend]. pres_go P.
Qed.
#[local] Hint Resolve pres_connectToBackend : pres.

Lemma pres_probeSettled fid o w : P w -> P (probeSettled fid o w).
Proof.
  intros Hw. pose proof (cl_local P HC) as HL. destruct HC, HL.
  cbv beta delta [probeSettled]. pres_go P.
Qed.
#[local] Hint Resolve pres_probeSettled : pres.

Lemma pres_reconnect w : P w -> P (reconnect w).
Proof.
  intros Hw. pose proof (cl_local P HC) as HL. destruct HC, HL.
  cbv beta delta [reconnect]. pres_go P.
Qed.
#[local] Hint Resolve pres_reconnect : pres.

Lemma pres_onopen sid w : P w -> P (onopen sid w).
Proof.
  intros Hw. pose proof (cl_local P HC) as HL. destruct HC, HL.
  cbv beta delta [onopen]. pres_go P.
Qed.
#[local] Hint Resolve pres_onopen : pres.

Lemma pres_handshakeTimeout sid w : P w -> P (handshakeTimeout sid w).
Proof.
  intros Hw. pose proof (cl_local P HC) as HL. destruct HC, HL.
  cbv beta delta [handshakeTimeout]. pres_go P.
Qed.
#[local] Hint Resolve pres_handshakeTimeout : pres.

Lemma pres_start w : P w -> P (start w).
Proof.
  intros Hw. pose proof (cl_local P HC) as HL. destruct HC, HL.
  cbv beta delta [start]. pres_go P.
Qed.
#[local] Hint Resolve pres_start : pres.

Lemma pres_start_loaded file w : P w -> P (start_loaded file w).
Proof.
  intros Hw. pose proof (cl_local P HC) as HL. destruct HC, HL.
  cbv beta delta [start_loaded]. pres_go P.
Qed.
#[local] Hint Resolve pres_start_loaded : pres.

Lemma pres_runTask t w : P w -> P (runTask t w).
Proof.
  intros Hw. pose proof (cl_local P HC) as HL. destruct HC, HL.
  cbv beta delta [runTask]. pres_go P.
Qed.
#[local] Hint Resolve pres_runTask : pres.

Lemma pres_timerFired id w : P w -> P (timerFired id w).
Proof.
  intros Hw. pose proof (cl_local P HC) as HL. destruct HC, HL.
  cbv beta delta [timerFired]. pres_go P.
Qed.
#[local] Hint Resolve pres_timerFired : pres.

Lemma pres_socketOpen sid w : P w -> P (socketOpen sid w).
Proof.
  intros Hw. pose proof (cl_local P HC) as HL. destruct HC, HL.
  cbv beta delta [socketOpen]. pres_go P.
Qed.
#[local] Hint Resolve pres_socketOpen : pres.

Lemma pres_socketError sid w : P w -> P (socketError sid w).
Proof.
  intros Hw. pose proof (cl_local P HC) as HL. destruct HC, HL.
  cbv beta delta [socketError]. pres_go P.
Qed.
#[local] Hint Resolve pres_socketError : pres.

Lemma pres_socketClose sid w : P w -> P (socketClose sid w).
Proof.
  intros Hw. pose proof (cl_local P HC) as HL. destruct HC, HL.
  cbv beta delta [socketClose]. pres_go P.
Qed.
#[local] Hint Resolve pres_socketClose : pres.

Lemma pres_socketMessage sid data w : P w -> P (socketMessage sid data w).
Proof.
  intros Hw. pose proof (cl_local P HC) as HL. destruct HC, HL.
  cbv beta delta [socketMessage]. pres_go P.
Qed.
#[local] Hint Resolve pres_socketMessage : pres.

Lemma pres_chat m n w : P w -> P (Nat.iter n (handleIncomingChat m) w).
Proof. intros Hw. induction n; simpl; auto with pres. Qed.

(** Every event but a call of [stop] preserves a closed predicate. *)
Lemma pres_step e w : e <> CallStop -> P w -> P (step e w).
Proof.
  intros He Hw. destruct e; simpl; auto with pres.
  - congruence.
  - by apply pres_chat.
  - destruct (Qle_bool 0 dt) eqn:E; [|done].
    apply (cl_elapse P HC); [by apply Qle_bool_iff|done].
Qed.

(** [stop] too, when [P] also survives [isConnected := false]. *)
Lemma pres_stop w :
  (forall w, P w -> P (set_state (set_isConnected false (state w)) w)) ->
  P w -> P (stop w).
Proof.
  intros Hoff Hw. pose proof (cl_local P HC) as HL. destruct HC, HL.
  cbv beta delta [stop]. pres_go P.
Qed.

Lemma pres_run es w :
  Forall (fun e => e <> CallStop) es -> P w -> P (run es w).
Proof.
  unfold run. intros Hes. revert w.
  induction Hes as [|e es He _ IH]; simpl; intros w Hw; [done|].
  by apply IH, pres_step.
Qed.

Lemma pres_run_all es w :
  (forall w, P w -> P (set_state (set_isConnected false (state w)) w)) ->
  P w -> P (run es w).
Proof.
  unfold run. intros Hoff. revert w.
  induction es as [|e es IH]; simpl; intros w Hw; [done|].
  apply IH. destruct e; try (by apply pres_step).
  by apply pres_stop.
Qed.

End AllMethods.
End Preservation.

(** Closure obligations for predicates that only read some fields. *)
Ltac closure :=
  intros; unfold ws_send, ws_close, set_ready in *; unfold_prims;
  simpl in *; autorewrite with frame; simpl; auto.

Lemma resume_sockets c ok w :
  sockets (resume c ok w) = sockets w /\ socket (resume c ok w) = socket w.
Proof.
  apply (pres_resume (fun w' => sockets w' = sockets w /\ socket w' = socket w));
    [|done].
  split; closure.
Qed.

(** *** Connection manager: the liveness probe *)

Lemma connectToBackend_local (c : Caller) (w : World) (u : URL) :
  URL_parse (popeBackendUrl (config w)) = Some u -> is_local u = true ->
  fetches (connectToBackend c w) !! next_id w
    = Some {| abortTimer := S (next_id w); fetchCaller := c |} /\
  sockets (connectToBackend c w) = sockets w /\
  socket (connectToBackend c w) = socket w.
Proof.
  intros Hu Hl. unfold connectToBackend, checkBackendStatus, _log.
  destruct (debug (config w)) eqn:D; simpl; rewrite Hu, Hl; simpl;
    rewrite ?D; simpl; repeat split; apply lookup_insert_eq.
Qed.

(** The world in which the awaiting frame is resumed after a failed probe. *)
Definition probe_failed (fid : nat) (f : Fetch) (o : FetchOutcome) (w : World)
  : World :=
  let w := clearTimer (abortTimer f) (set_fetches (delete fid (fetches w)) w) in
  let w := match o with
           | FetchFailed => _log "Backend status check failed" w
           | _ => w
           end in
  _log "Backend server appears to be unavailable" w.

Lemma probe_failed_sockets fid f o w :
  sockets (probe_failed fid f o w) = sockets w /\
  socket (probe_failed fid f o w) = socket w.
Proof. unfold probe_failed. frame. Qed.

(** C4. For a loopback target, connectToBackend first puts a probe in
    flight and creates no socket; when the probe then reports the backend
    unavailable (a response outside 2xx, a failed fetch, or the abort
    timer), the promise of connectToBackend is rejected in that same step
    (the awaiting frame is resumed with the rejection) and no WebSocket is
    created: the socket store and this.socket are as before. *)
Theorem C4_probe_failure_rejects_at_once :
  (forall (c : Caller) (w : World) (u : URL),
      URL_parse (popeBackendUrl (config w)) = Some u -> is_local u = true ->
      fetches (connectToBackend c w) !! next_id w
        = Some {| abortTimer := S (next_id w); fetchCaller := c |} /\
      sockets (connectToBackend c w) = sockets w /\
      socket (connectToBackend c w) = socket w) /\
  (forall (w : World) (fid : nat) (f : Fetch) (o : FetchOutcome),
      fetches w !! fid = Some f -> o <> ResponseOk ->
      probeSettled fid o w
        = resume (fetchCaller f) false (probe_failed fid f o w) /\
      runTask (ProbeAbort fid) w
        = resume (fetchCaller f) false (probe_failed fid f FetchFailed w) /\
      sockets (probeSettled fid o w) = sockets w /\
      socket (probeSettled fid o w) = socket w).
Proof.
  split; [exact connectToBackend_local|].
  intros w fid f o Hf Ho.
  assert (E : forall o', o' <> ResponseOk ->
            probeSettled fid o' w
            = resume (fetchCaller f) false (probe_failed fid f o' w)).
  { intros o' Ho'. unfold probeSettled, probe_failed. rewrite Hf.
    destruct o'; try congruence; reflexivity. }
  split; [by apply E|]. split; [simpl; by apply E|].
  rewrite (E o Ho).
  destruct (resume_sockets (fetchCaller f) false (probe_failed fid f o w)) as [-> ->].
  apply probe_failed_sockets.
Qed.

(** *** Outbound voice input *)

(** The socket is absent, or present and not OPEN. *)
Definition disconnected (w : World) : Prop :=
  socket w = None \/
  exists sid k, socket w = Some sid /\ sockets w !! sid = Some k
                /\ readyState k <> OPEN.

Lemma disconnected_open_socket w : disconnected w -> open_socket w = None.
Proof.
  unfold open_socket. intros [->|(sid & k & -> & -> & Hk)]; [reflexivity|].
  destruct (readyState k); simpl; congruence.
Qed.

Lemma sendVoiceInput_closed txt w :
  open_socket w = None ->
  sendVoiceInput txt w = _log "Cannot send voice input: not connected to backend" w.
Proof. unfold sendVoiceInput. by intros ->. Qed.

(** C10. While the socket is absent or not OPEN, sendVoiceInput sends
    nothing and leaves chatHistory (indeed the whole agent state) as it
    was; a chat message from another sender handled in that situation is
    therefore not recorded in chatHistory, while lastInteraction is set to
    the current time. *)
Theorem C10_voice_input_dropped_while_disconnected
  (w : World) (txt : string) (m : ChatMessage) :
  disconnected w ->
  (sockets (sendVoiceInput txt w) = sockets w /\
   state (sendVoiceInput txt w) = state w) /\
  (fromId m <> player_id (world w) ->
   sockets (handleIncomingChat m w) = sockets w /\
   chatHistory (state (handleIncomingChat m w)) = chatHistory (state w) /\
   lastInteraction (state (handleIncomingChat m w)) = now w).
Proof.
  intros Hd. apply disconnected_open_socket in Hd.
  split.
  - rewrite sendVoiceInput_closed by done. frame.
  - intros Hne. unfold handleIncomingChat.
    assert (Hw : world (_log "Received chat message" w) = world w) by frame.
    rewrite Hw. destruct (decide _) as [E|_]; [done|].
    rewrite sendVoiceInput_closed by (by rewrite log_open_socket).
    unfold updateInteraction, sendStateToBackend.
    assert (Ho : forall v, open_socket (set_state v
              (_log "Cannot send voice input: not connected to backend"
                 (_log "Received chat message" w))) = None).
    { intros v.
      transitivity (open_socket
        (_log "Cannot send voice input: not connected to backend"
           (_log "Received chat message" w))); [reflexivity|].
      by rewrite !log_open_socket. }
    rewrite Ho. frame.
Qed.

(** *** Message router *)









(** *** State reconciler

    [updateStateFromBackend] runs seven blocks in sequence; each is named
    here so that its effect can be stated on its own. *)

Definition reconcile_position (b : BackendState) (w : World) : World :=
  match position b with
  | Some p =>
      if negb (vec_eqb p (currentPosition (state w))) then
        moveToPosition p (set_state (set_currentPosition p (state w)) w)
      else w
  | None => w
  end.

Definition reconcile_rotation (b : BackendState) (w : World) : World :=
  match rotation b with
  | Some r =>
      if negb (vec_eqb r (currentRotation (state w))) then
        rotateTo r (set_state (set_currentRotation r (state w)) w)
      else w
  | None => w
  end.

Definition reconcile_speaking (b : BackendState) (w : World) : World :=
  match speaking b with
  | Some v =>
      let w := set_state (set_isSpeaking v (state w)) w in
      if v then setAnimation "talking" w
      else if negb (isMoving (state w)) && negb (isThinking (state w))
      then setAnimation "idle" w else w
  | None => w
  end.

Definition reconcile_thinking (b : BackendState) (w : World) : World :=
  match thinking b with
  | Some v =>
      let w := set_state (set_isThinking v (state w)) w in
      if v then setAnimation "thinking" w
      else if negb (isMoving (state w)) && negb (isSpeaking (state w))
      then setAnimation "idle" w else w
  | None => w
  end.

Definition reconcile_browser (b : BackendState) (w : World) : World :=
  match browser_active b with
  | Some v =>
      let w := set_state (set_browserActive v (state w)) w in
      if v then setAnimation "browsing" w
      else if negb (isMoving (state w)) && negb (isSpeaking (state w))
              && negb (isThinking (state w))
      then setAnimation "idle" w else w
  | None => w
  end.

Definition reconcile_model (b : BackendState) (w : World) : World :=
  match current_model b with
  | Some m =>
      if String.eqb m "" then w else set_state (set_activeModel m (state w)) w
  | None => w
  end.

Definition reconcile_animations (b : BackendState) (w : World) : World :=
  match animations b with
  | Some (a :: _) => setAnimation a w
  | _ => w
  end.

Lemma updateStateFromBackend_blocks b w :
  updateStateFromBackend b w
  = reconcile_animations b (reconcile_model b (reconcile_browser b
      (reconcile_thinking b (reconcile_speaking b
         (reconcile_rotation b (reconcile_position b w)))))).
Proof. reflexivity. Qed.

Lemma vec_eqb_refl v : vec_eqb v v = true.
Proof.
  induction v as [|x v IH]; [reflexivity|]. simpl.
  rewrite IH, andb_true_r. apply Qeq_bool_iff. reflexivity.
Qed.

(** The pure effect of each block on [this.state]. *)
Definition U_position (b : BackendState) (s : AgentState) : AgentState :=
  match position b with
  | Some p =>
      if negb (vec_eqb p (currentPosition s)) then
        set_currentPosition p
          (set_currentAnimation "walking"
             (set_isMoving true (set_currentPosition p s)))
      else s
  | None => s
  end.

Definition U_rotation (b : BackendState) (s : AgentState) : AgentState :=
  match rotation b with
  | Some r => if negb (vec_eqb r (currentRotation s))
              then set_currentRotation r s else s
  | None => s
  end.

Definition U_speaking (b : BackendState) (s : AgentState) : AgentState :=
  match speaking b with
  | Some v =>
      let s := set_isSpeaking v s in
      if v then set_currentAnimation "talking" s
      else if negb (isMoving s) && negb (isThinking s)
      then set_currentAnimation "idle" s else s
  | None => s
  end.

Definition U_thinking (b : BackendState) (s : AgentState) : AgentState :=
  match thinking b with
  | Some v =>
      let s := set_isThinking v s in
      if v then set_currentAnimation "thinking" s
      else if negb (isMoving s) && negb (isSpeaking s)
      then set_currentAnimation "idle" s else s
  | None => s
  end.

Definition U_browser (b : BackendState) (s : AgentState) : AgentState :=
  match browser_active b with
  | Some v =>
      let s := set_browserActive v s in
      if v then set_currentAnimation "browsing" s
      else if negb (isMoving s) && negb (isSpeaking s) && negb (isThinking s)
      then set_currentAnimation "idle" s else s
  | None => s
  end.

Definition U_model (b : BackendState) (s : AgentState) : AgentState :=
  match current_model b with
  | Some m => if String.eqb m "" then s else set_activeModel m s
  | None => s
  end.

Definition U_animations (b : BackendState) (s : AgentState) : AgentState :=
  match animations b with
  | Some (a :: _) => set_currentAnimation a s
  | _ => s
  end.

Definition U (b : BackendState) (s : AgentState) : AgentState :=
  U_animations b (U_model b (U_browser b (U_thinking b (U_speaking b
    (U_rotation b (U_position b s)))))).

Ltac state_tac :=
  repeat (simpl; rewrite ?state_setAnimation, ?state_log; case_match);
  simpl; rewrite ?state_setAnimation, ?state_log; simpl; try reflexivity.

Lemma state_reconcile_position b w :
  state (reconcile_position b w) = U_position b (state w).
Proof.
  unfold reconcile_position, U_position, moveToPosition, setTimeout, actuate.
  state_tac.
Qed.

Lemma state_reconcile_rotation b w :
  state (reconcile_rotation b w) = U_rotation b (state w).
Proof.
  unfold reconcile_rotation, U_rotation, rotateTo, actuate. state_tac.
Qed.

Lemma state_reconcile_speaking b w :
  state (reconcile_speaking b w) = U_speaking b (state w).
Proof. unfold reconcile_speaking, U_speaking. state_tac. Qed.

Lemma state_reconcile_thinking b w :
  state (reconcile_thinking b w) = U_thinking b (state w).
Proof. unfold reconcile_thinking, U_thinking. state_tac. Qed.

Lemma state_reconcile_browser b w :
  state (reconcile_browser b w) = U_browser b (state w).
Proof. unfold reconcile_browser, U_browser. state_tac. Qed.

Lemma state_reconcile_model b w :
  state (reconcile_model b w) = U_model b (state w).
Proof. unfold reconcile_model, U_model. state_tac. Qed.

Lemma state_reconcile_animations b w :
  state (reconcile_animations b w) = U_animations b (state w).
Proof. unfold reconcile_animations, U_animations. state_tac. Qed.

Lemma state_updateStateFromBackend b w :
  state (updateStateFromBackend b w) = U b (state w).
Proof.
  rewrite updateStateFromBackend_blocks. unfold U.
  by rewrite state_reconcile_animations, state_reconcile_model,
    state_reconcile_browser, state_reconcile_thinking,
    state_reconcile_speaking, state_reconcile_rotation,
    state_reconcile_position.
Qed.

(** Rotation and model are independent of the other blocks; the rest is
    the core that drives the animation. *)
Definition U_core (b : BackendState) (s : AgentState) : AgentState :=
  U_animations b (U_browser b (U_thinking b (U_speaking b (U_position b s)))).

Ltac blocks :=
  unfold U_core, U_position, U_rotation, U_speaking, U_thinking, U_browser,
    U_model, U_animations; simpl.

Ltac commute :=
  intros b s; destruct b as [p r sp th br mo an];
  destruct s as [c bc mv a cp cr am isp ith ba li ch]; blocks;
  repeat (case_match; simpl in *; try reflexivity; try congruence).

Lemma rotation_position : forall b s,
  U_rotation b (U_position b s) = U_position b (U_rotation b s).
Proof. commute. Qed.
Lemma rotation_speaking : forall b s,
  U_rotation b (U_speaking b s) = U_speaking b (U_rotation b s).
Proof. commute. Qed.
Lemma rotation_thinking : forall b s,
  U_rotation b (U_thinking b s) = U_thinking b (U_rotation b s).
Proof. commute. Qed.
Lemma rotation_browser : forall b s,
  U_rotation b (U_browser b s) = U_browser b (U_rotation b s).
Proof. commute. Qed.
Lemma rotation_model : forall b s,
  U_rotation b (U_model b s) = U_model b (U_rotation b s).
Proof. commute. Qed.
Lemma rotation_animations : forall b s,
  U_rotation b (U_animations b s) = U_animations b (U_rotation b s).
Proof. commute. Qed.
Lemma model_position : forall b s,
  U_model b (U_position b s) = U_position b (U_model b s).
Proof. commute. Qed.
Lemma model_speaking : forall b s,
  U_model b (U_speaking b s) = U_speaking b (U_model b s).
Proof. commute. Qed.
Lemma model_thinking : forall b s,
  U_model b (U_thinking b s) = U_thinking b (U_model b s).
Proof. commute. Qed.
Lemma model_browser : forall b s,
  U_model b (U_browser b s) = U_browser b (U_model b s).
Proof. commute. Qed.
Lemma model_animations : forall b s,
  U_model b (U_animations b s) = U_animations b (U_model b s).
Proof. commute. Qed.

Lemma U_split b s : U b s = U_rotation b (U_model b (U_core b s)).
Proof.
  unfold U, U_core.
  rewrite <- rotation_speaking, <- rotation_thinking, <- rotation_browser,
    <- rotation_model, <- rotation_animations.
  by rewrite model_animations.
Qed.

Lemma rotation_core b s : U_rotation b (U_core b s) = U_core b (U_rotation b s).
Proof.
  unfold U_core.
  by rewrite rotation_animations, rotation_browser, rotation_thinking,
    rotation_speaking, rotation_position.
Qed.

Lemma model_core b s : U_model b (U_core b s) = U_core b (U_model b s).
Proof.
  unfold U_core.
  by rewrite model_animations, model_browser, model_thinking, model_speaking,
    model_position.
Qed.

Lemma rotation_idempotent b s : U_rotation b (U_rotation b s) = U_rotation b s.
Proof.
  unfold U_rotation. destruct (rotation b) as [r|]; [|done].
  destruct (vec_eqb r (currentRotation s)) eqn:E; simpl; rewrite ?E; [done|].
  by rewrite vec_eqb_refl.
Qed.

Lemma model_idempotent b s : U_model b (U_model b s) = U_model b s.
Proof. unfold U_model. repeat case_match; done. Qed.

(** The flag and animation blocks, without the position block. *)
Definition U_flags (b : BackendState) (s : AgentState) : AgentState :=
  U_animations b (U_browser b (U_thinking b (U_speaking b s))).

Lemma flags_idempotent b s : U_flags b (U_flags b s) = U_flags b s.
Proof.
  destruct b as [p r sp th br mo an], s as [c bc mv a cp cr am isp ith ba li ch].
  destruct an as [[|an0 anl]|];
  destruct sp as [[|]|], th as [[|]|], br as [[|]|];
  destruct mv, isp, ith; vm_compute; reflexivity.
Qed.

Lemma flags_position b s : currentPosition (U_flags b s) = currentPosition s.
Proof.
  destruct b as [p r sp th br mo an], s as [c bc mv a cp cr am isp ith ba li ch].
  destruct an as [[|an0 anl]|];
  destruct sp as [[|]|], th as [[|]|], br as [[|]|];
  destruct mv, isp, ith; reflexivity.
Qed.

Lemma position_settled b s :
  match position b with
  | Some p => vec_eqb p (currentPosition s) = true
  | None => True
  end -> U_position b s = s.
Proof. unfold U_position. destruct (position b); [intros ->|]; done. Qed.

Lemma position_after b s :
  match position b with
  | Some p => vec_eqb p (currentPosition (U_position b s)) = true
  | None => True
  end.
Proof.
  unfold U_position. destruct (position b) as [p|]; [|done].
  destruct (vec_eqb p (currentPosition s)) eqn:E; simpl; [done|].
  apply vec_eqb_refl.
Qed.

Lemma core_idempotent b s : U_core b (U_core b s) = U_core b s.
Proof.
  change (U_flags b (U_position b (U_flags b (U_position b s)))
          = U_flags b (U_position b s)).
  rewrite (position_settled b (U_flags b _)).
  - apply flags_idempotent.
  - rewrite flags_position. apply position_after.
Qed.

Lemma U_idempotent b s : U b (U b s) = U b s.
Proof.
  rewrite !U_split.
  rewrite <- (rotation_core b (U_model b (U_core b s))).
  rewrite <- (model_core b (U_core b s)), core_idempotent.
  rewrite <- (rotation_model b (U_model b (U_core b s))), model_idempotent.
  apply rotation_idempotent.
Qed.

(** The flag and animation blocks at the level of worlds. *)
Definition reconcile_flags (b : BackendState) (w : World) : World :=
  reconcile_animations b (reconcile_model b (reconcile_browser b
    (reconcile_thinking b (reconcile_speaking b w)))).

(** Commands to the host that move or turn the agent. *)
Definition pose_commands (l : list Actuation) : list Actuation :=
  List.filter (fun a => match a with Animate _ => false | _ => true end) l.

Lemma pose_commands_setAnimation a w :
  pose_commands (actuation (setAnimation a w)) = pose_commands (actuation w).
Proof.
  unfold setAnimation, actuate, pose_commands. case_match; [done|].
  simpl. rewrite actuation_log, List.filter_app. simpl.
  by rewrite app_nil_r.
Qed.

(** Writing back the state a world already has changes nothing. *)
Lemma set_state_same w : set_state (state w) w = w.
Proof. by destruct w. Qed.

(** A step that arms no timer, touches no socket and issues no move or
    rotate command. *)
Definition quiet (w w' : World) : Prop :=
  timers w' = timers w /\ sockets w' = sockets w /\ socket w' = socket w /\
  next_id w' = next_id w /\
  pose_commands (actuation w') = pose_commands (actuation w).

Lemma quiet_trans w1 w2 w3 : quiet w1 w2 -> quiet w2 w3 -> quiet w1 w3.
Proof. unfold quiet. intros (?&?&?&?&?) (?&?&?&?&?). repeat split; congruence. Qed.

Lemma quiet_setAnimation a s w :
  quiet w (setAnimation a (set_state s w)).
Proof.
  unfold quiet. rewrite pose_commands_setAnimation.
  autorewrite with frame. done.
Qed.

Lemma quiet_set_state s w : quiet w (set_state s w).
Proof. done. Qed.

Lemma quiet_refl w : quiet w w.
Proof. done. Qed.

Ltac quiet_block :=
  repeat case_match;
  first [ apply quiet_refl | apply quiet_setAnimation | apply quiet_set_state
        | rewrite <- (set_state_same) at 1; apply quiet_setAnimation ].

Lemma quiet_speaking b w : quiet w (reconcile_speaking b w).
Proof. unfold reconcile_speaking. quiet_block. Qed.
Lemma quiet_thinking b w : quiet w (reconcile_thinking b w).
Proof. unfold reconcile_thinking. quiet_block. Qed.
Lemma quiet_browser b w : quiet w (reconcile_browser b w).
Proof. unfold reconcile_browser. quiet_block. Qed.
Lemma quiet_model b w : quiet w (reconcile_model b w).
Proof. unfold reconcile_model. quiet_block. Qed.
Lemma quiet_animations b w : quiet w (reconcile_animations b w).
Proof.
  unfold reconcile_animations. repeat case_match; try apply quiet_refl.
  rewrite <- (set_state_same w) at 2. apply quiet_setAnimation.
Qed.

Lemma reconcile_flags_frame b w :
  timers (reconcile_flags b w) = timers w /\
  sockets (reconcile_flags b w) = sockets w /\
  socket (reconcile_flags b w) = socket w /\
  next_id (reconcile_flags b w) = next_id w /\
  pose_commands (actuation (reconcile_flags b w)) = pose_commands (actuation w).
Proof.
  change (quiet w (reconcile_flags b w)). unfold reconcile_flags.
  eapply quiet_trans; [apply (quiet_speaking b)|].
  eapply quiet_trans; [apply (quiet_thinking b)|].
  eapply quiet_trans; [apply (quiet_browser b)|].
  eapply quiet_trans; [apply (quiet_model b)|].
  apply quiet_animations.
Qed.

Lemma reconcile_position_settled b w :
  match position b with
  | Some p => vec_eqb p (currentPosition (state w)) = true
  | None => True
  end -> reconcile_position b w = w.
Proof. unfold reconcile_position. destruct (position b); [intros ->|]; done. Qed.

Lemma reconcile_rotation_settled b w :
  match rotation b with
  | Some r => vec_eqb r (currentRotation (state w)) = true
  | None => True
  end -> reconcile_rotation b w = w.
Proof. unfold reconcile_rotation. destruct (rotation b); [intros ->|]; done. Qed.

Lemma rotation_after b s :
  match rotation b with
  | Some r => vec_eqb r (currentRotation (U_rotation b s)) = true
  | None => True
  end.
Proof.
  unfold U_rotation. destruct (rotation b) as [r|]; [|done].
  destruct (vec_eqb r (currentRotation s)) eqn:E; simpl; [done|].
  apply vec_eqb_refl.
Qed.

Lemma U_position_after b s :
  match position b with
  | Some p => vec_eqb p (currentPosition (U b s)) = true
  | None => True
  end.
Proof.
  assert (E : currentPosition (U b s) = currentPosition (U_position b s)).
  { rewrite U_split. unfold U_core. fold (U_flags b (U_position b s)).
    rewrite <- (flags_position b (U_position b s)).
    unfold U_rotation, U_model. by repeat case_match. }
  rewrite E. apply position_after.
Qed.

Lemma U_rotation_after b s :
  match rotation b with
  | Some r => vec_eqb r (currentRotation (U b s)) = true
  | None => True
  end.
Proof. rewrite U_split. apply rotation_after. Qed.

(** The second of two successive applications is the flag blocks alone. *)
Lemma second_application b w :
  updateStateFromBackend b (updateStateFromBackend b w)
  = reconcile_flags b (updateStateFromBackend b w).
Proof.
  rewrite (updateStateFromBackend_blocks b (updateStateFromBackend b w)).
  rewrite reconcile_position_settled, reconcile_rotation_settled; [done| |];
    rewrite state_updateStateFromBackend;
    [apply U_rotation_after|apply U_position_after].
Qed.

(** Setting the animation that is already active is a no-op on the whole
    world: no state change, no log line, no call to the host. *)
Lemma setAnimation_same a w :
  currentAnimation (state w) = a -> setAnimation a w = w.
Proof. intros E. unfold setAnimation. by rewrite E, String.eqb_refl. Qed.

(** A block whose effect on the agent state is nil has no effect at all:
    the only thing it could still do is call setAnimation with the active
    animation. *)
Ltac fixed_block :=
  lazymatch goal with
  | w : World |- _ => destruct w as [? ? [] ? ? ? ? ? ? ? ? ? ? ? ? ? ? ? ?]
  end;
  simpl; repeat (case_match; simpl; try done);
  intros;
  unfold set_currentAnimation, set_isSpeaking, set_isThinking,
    set_browserActive, set_activeModel in *;
  simpl in *;
  repeat match goal with
         | E : Build_AgentState _ _ _ _ _ _ _ _ _ _ _ _ = _ |- _ =>
             inversion E; clear E; subst
         end;
  unfold setAnimation; simpl; rewrite ?String.eqb_refl; reflexivity.

Lemma reconcile_speaking_fixed b w :
  U_speaking b (state w) = state w -> reconcile_speaking b w = w.
Proof. unfold U_speaking, reconcile_speaking. fixed_block. Qed.

Lemma reconcile_thinking_fixed b w :
  U_thinking b (state w) = state w -> reconcile_thinking b w = w.
Proof. unfold U_thinking, reconcile_thinking. fixed_block. Qed.

Lemma reconcile_browser_fixed b w :
  U_browser b (state w) = state w -> reconcile_browser b w = w.
Proof. unfold U_browser, reconcile_browser. fixed_block. Qed.

Lemma reconcile_model_fixed b w :
  U_model b (state w) = state w -> reconcile_model b w = w.
Proof. unfold U_model, reconcile_model. fixed_block. Qed.

Lemma reconcile_animations_fixed b w :
  U_animations b (state w) = state w -> reconcile_animations b w = w.
Proof. unfold U_animations, reconcile_animations. fixed_block. Qed.

(** At most one of the four fields that drive the animation is present. *)
Definition single_driver (b : BackendState) : Prop :=
  match speaking b, thinking b, browser_active b, animations b with
  | _, None, None, (None | Some []) => True
  | None, _, None, (None | Some []) => True
  | None, None, _, (None | Some []) => True
  | None, None, None, _ => True
  | _, _, _, _ => False
  end.

(** With a single driver every flag block is idempotent right after the
    flag blocks have run. *)
Lemma single_driver_flags b s :
  single_driver b ->
  U_speaking b (U_flags b s) = U_flags b s /\
  U_thinking b (U_flags b s) = U_flags b s /\
  U_browser b (U_flags b s) = U_flags b s /\
  U_animations b (U_flags b s) = U_flags b s.
Proof.
  destruct b as [p r sp th br mo an], s as [c bc mv a cp cr am isp ith ba li ch].
  unfold single_driver. simpl.
  destruct an as [[|an0 anl]|];
  destruct sp as [[|]|], th as [[|]|], br as [[|]|]; try done;
  destruct mv, isp, ith; intros _; vm_compute; repeat split; reflexivity.
Qed.

Lemma single_driver_fixed b s :
  single_driver b ->
  U_speaking b (U b s) = U b s /\ U_thinking b (U b s) = U b s /\
  U_browser b (U b s) = U b s /\ U_model b (U b s) = U b s /\
  U_animations b (U b s) = U b s.
Proof.
  intros Hb. rewrite U_split. unfold U_core.
  fold (U_flags b (U_position b s)).
  destruct (single_driver_flags b (U_position b s) Hb) as (E1 & E2 & E3 & E4).
  repeat split.
  - by rewrite <- rotation_speaking, <- model_speaking, E1.
  - by rewrite <- rotation_thinking, <- model_thinking, E2.
  - by rewrite <- rotation_browser, <- model_browser, E3.
  - by rewrite <- rotation_model, model_idempotent.
  - by rewrite <- rotation_animations, <- model_animations, E4.
Qed.

(** With a single driver the second of two successive applications is the
    identity on the whole world. *)
Lemma second_application_silent b w :
  single_driver b ->
  updateStateFromBackend b (updateStateFromBackend b w)
  = updateStateFromBackend b w.
Proof.
  intros Hb. rewrite second_application. unfold reconcile_flags.
  set (w1 := updateStateFromBackend b w).
  assert (Hs : state w1 = U b (state w))
    by apply state_updateStateFromBackend.
  destruct (single_driver_fixed b (state w) Hb) as (E1 & E2 & E3 & E4 & E5).
  rewrite <- Hs in E1, E2, E3, E4, E5.
  rewrite (reconcile_speaking_fixed b w1 E1),
    (reconcile_thinking_fixed b w1 E2), (reconcile_browser_fixed b w1 E3),
    (reconcile_model_fixed b w1 E4).
  by apply reconcile_animations_fixed.
Qed.

(** C9 (as amended). Applying the same partial update twice in succession.
    Whatever the update, the second application ends in exactly the agent
    state the first one reached, arms no timer, sends nothing and issues no
    move or rotate command: position and rotation are compared by value.
    Setting the animation that is already active is a no-op, so when the
    update drives the animation through at most one of speaking, thinking,
    browser_active and animations, the second application changes nothing
    whatever: not a field, not a log line, not an animation call.  (With
    two or more drivers it can switch the animation on the way; see the
    counterexample.) *)
Theorem C9_second_update_leaves_state_and_pose (b : BackendState) (w : World) :
  let w1 := updateStateFromBackend b w in
  let w2 := updateStateFromBackend b w1 in
  (state w2 = state w1 /\ timers w2 = timers w1 /\ sockets w2 = sockets w1 /\
   pose_commands (actuation w2) = pose_commands (actuation w1)) /\
  (single_driver b -> w2 = w1) /\
  (forall a, currentAnimation (state w) = a -> setAnimation a w = w).
Proof.
  cbv zeta. split; [split|split].
  - rewrite !state_updateStateFromBackend. apply U_idempotent.
  - rewrite second_application.
    destruct (reconcile_flags_frame b (updateStateFromBackend b w))
      as (? & ? & ? & ? & ?). auto.
  - apply second_application_silent.
  - intros a. apply setAnimation_same.
Qed.

(** *** Animation precedence *)

Lemma moveDone_while_speaking w :
  isSpeaking (state w) = true ->
  state (moveDone w) = set_isMoving false (state w).
Proof. intros Hs. unfold moveDone. simpl. by rewrite Hs. Qed.

(** C2 (as amended). With both moving and speaking set the animation is
    the one written last: "talking" when one update carries a new position
    and speaking:true (the position block runs first), "walking" when the
    new position arrives while speaking is already set.  When the movement
    then completes while speaking is still set, only isMoving changes: the
    animation stays as it was and idle is never entered. *)
Theorem C2_last_writer_wins (w : World) (b : BackendState) (p : Vec) :
  position b = Some p ->
  vec_eqb p (currentPosition (state w)) = false ->
  thinking b = None -> browser_active b = None -> animations b = None ->
  let w' := updateStateFromBackend b w in
  (speaking b = Some true ->
     isMoving (state w') = true /\ isSpeaking (state w') = true /\
     currentAnimation (state w') = "talking") /\
  (speaking b = None -> isSpeaking (state w) = true ->
     isMoving (state w') = true /\ isSpeaking (state w') = true /\
     currentAnimation (state w') = "walking") /\
  (isSpeaking (state w') = true ->
     state (moveDone w') = set_isMoving false (state w')).
Proof.
  intros Hp Hne Ht Hb Ha. cbv zeta.
  split; [|split]; [| |apply moveDone_while_speaking].
  all: rewrite state_updateStateFromBackend.
  all: destruct b as [bp br bs bt bb bm ba]; simpl in *; subst.
  all: destruct (state w) as [c bc mv a cp cr am isp ith ba li ch] eqn:Es.
  all: simpl in Hne.
  - intros ->. unfold U, U_position, U_rotation, U_speaking, U_thinking,
      U_browser, U_model, U_animations; simpl. rewrite Hne; simpl.
    repeat case_match; simpl; auto.
  - intros -> Hs. simpl in Hs. subst isp.
    unfold U, U_position, U_rotation, U_speaking, U_thinking,
      U_browser, U_model, U_animations; simpl. rewrite Hne; simpl.
    repeat case_match; simpl; auto.
Qed.

(** *** Clearing the speaking flag *)

(** C5 (what the code does). An update that only clears speaking sets the
    animation to idle whenever the agent is neither moving nor thinking,
    whatever browserActive is: the guard does not consult it. *)
Theorem C5_clearing_speaking_ignores_browsing (w : World) :
  isMoving (state w) = false -> isThinking (state w) = false ->
  let w' := updateStateFromBackend
              {| position := None; rotation := None; speaking := Some false;
                 thinking := None; browser_active := None;
                 current_model := None; animations := None |} w in
  currentAnimation (state w') = "idle" /\
  browserActive (state w') = browserActive (state w).
Proof.
  intros Hm Ht. cbv zeta. rewrite state_updateStateFromBackend.
  destruct (state w); simpl in *; subst. split; reflexivity.
Qed.

(** *** The two connection flags *)

Lemma connected_closed : Closed (fun w => isConnected (state w) = true).
Proof. split; [split|..]; closure. Qed.

(** C6 (as amended). From the moment start() has completed (isConnected is
    true) and for as long as stop() is not called, isConnected stays true
    whatever else happens, so that isBackendConnected implies isConnected
    throughout that period.  Outside it the implication can fail; see the
    counterexample. *)
Theorem C6_connected_between_start_and_stop (es : list Event) (w : World) :
  isConnected (state w) = true ->
  Forall (fun e => e <> CallStop) es ->
  isConnected (state (run es w)) = true /\
  (isBackendConnected (state (run es w)) = true ->
   isConnected (state (run es w)) = true).
Proof.
  intros Hw Hes.
  assert (isConnected (state (run es w)) = true); [|auto].
  by apply (pres_run _ connected_closed).
Qed.

(** *** A successful handshake *)

Lemma resume_connection c ok w :
  connectionAttempts w = Some 0%Z ->
  sockets (resume c ok w) = sockets w /\
  connectionAttempts (resume c ok w) = Some 0%Z /\
  isBackendConnected (state (resume c ok w)) = isBackendConnected (state w).
Proof.
  intros Ha.
  apply (pres_resume (fun w' => sockets w' = sockets w /\
                                connectionAttempts w' = Some 0%Z /\
                                isBackendConnected (state w')
                                = isBackendConnected (state w))); [|done].
  split; closure.
  unfold attempts.
  match goal with Hc : _ /\ _ /\ _ |- _ => destruct Hc as (? & -> & ?) end.
  auto.
Qed.

(** The world in which the frame awaiting the handshake of [sid] is
    resumed: the socket is OPEN with one more frame sent and its promise
    resolved, the handshake timer is cleared, the flag is set and the
    counter is zero. *)
Definition handshaken (sid : nat) (k : WebSocket) (w : World) : World :=
  let w1 := _log "Connected to Pope backend"
              (clearTimer (handshakeTimer k) (set_ready sid OPEN w)) in
  let w2 := set_connectionAttempts (Some 0%Z)
              (set_state (set_isBackendConnected true (state w1)) w1) in
  set_sockets
    (<[sid := {| readyState := OPEN;
                 sent := sent k ++ [OutStateUpdate (currentPosition (state w))
                                      (currentRotation (state w))
                                      (currentAnimation (state w))
                                      (isInteracting w)];
                 handshakeTimer := handshakeTimer k;
                 promise := Resolved;
                 awaitedBy := awaitedBy k |}]> (sockets w)) w2.

Lemma socketOpen_current (w : World) (sid : nat) (k : WebSocket) :
  socket w = Some sid -> sockets w !! sid = Some k ->
  readyState k = CONNECTING -> promise k = Pending ->
  socketOpen sid w = resume (awaitedBy k) true (handshaken sid k w).
Proof.
  intros Hs Hk Hr Hp. unfold socketOpen. rewrite Hk. simpl. rewrite Hr.
  unfold onopen, handshaken.
  assert (Hk1 : sockets (set_ready sid OPEN w) !! sid
                = Some (set_readyState OPEN k)).
  { unfold set_ready. simpl. by rewrite lookup_alter_eq, Hk. }
  rewrite Hk1. simpl.
  set (w1 := _log "Connected to Pope backend" (clearTimer (handshakeTimer k) (set_ready sid OPEN w))).
  assert (Hs1 : socket w1 = Some sid) by (unfold w1; by rewrite socket_log).
  assert (Hk2 : sockets w1 !! sid = Some (set_readyState OPEN k))
    by (unfold w1; by rewrite sockets_log).
  assert (Hst : state w1 = state w) by (unfold w1; by rewrite state_log).
  assert (Hn : now w1 = now w) by (unfold w1; by rewrite now_log).
  assert (Hss : sockets w1 = alter (set_readyState OPEN) sid (sockets w))
    by (unfold w1; by rewrite sockets_log).
  unfold sendStateToBackend, open_socket. simpl. rewrite Hs1, Hk2. simpl.
  unfold settle, ws_send. simpl. rewrite lookup_alter_eq, Hk2. simpl.
  rewrite Hp. f_equal.
  assert (Hi : isInteracting
                 (set_connectionAttempts (Some 0%Z)
                    (set_state (set_isBackendConnected true (state w1)) w1))
               = isInteracting w).
  { unfold isInteracting. simpl. by rewrite Hn, Hst. }
  rewrite Hi, Hst, Hss.
  match goal with
  | |- set_sockets ?A _ = set_sockets ?B _ =>
      assert (E : A = B); [|by rewrite E]
  end.
  apply map_eq. intros i. destruct (decide (i = sid)) as [->|Hne].
  - by rewrite !lookup_insert_eq.
  - by rewrite !lookup_insert_ne, !lookup_alter_ne.
Qed.

(** The handshake in the ordinary case.  When the socket that opens is the
    one the agent currently holds and its promise is still pending, the
    attempt counter is reset to zero, isBackendConnected is set, one
    STATE_UPDATE frame with the current position, rotation, animation and
    interacting flag is sent on that socket, and the promise is resolved:
    the awaiting frame is resumed with success in the same step. *)
Theorem handshake_on_current_socket (w : World) (sid : nat) (k : WebSocket) :
  socket w = Some sid -> sockets w !! sid = Some k ->
  readyState k = CONNECTING -> promise k = Pending ->
  let w' := socketOpen sid w in
  w' = resume (awaitedBy k) true (handshaken sid k w) /\
  connectionAttempts w' = Some 0%Z /\
  isBackendConnected (state w') = true /\
  sockets w' !! sid
    = Some {| readyState := OPEN;
              sent := sent k ++ [OutStateUpdate (currentPosition (state w))
                                   (currentRotation (state w))
                                   (currentAnimation (state w))
                                   (isInteracting w)];
              handshakeTimer := handshakeTimer k;
              promise := Resolved;
              awaitedBy := awaitedBy k |}.
Proof.
  intros Hs Hk Hr Hp. cbv zeta.
  rewrite (socketOpen_current w sid k Hs Hk Hr Hp). split; [done|].
  destruct (resume_connection (awaitedBy k) true (handshaken sid k w))
    as (E1 & E2 & E3); [done|].
  rewrite E1, E2, E3. repeat split.
  unfold handshaken. simpl. apply lookup_insert_eq.
Qed.

End Properties.

(** ** Scenarios

    Event sequences on the scenario agents.  Identifiers are handed out in
    order: with the local target the first probe is 0 (abort timer 1) and
    the first socket 2 (handshake timer 3); with the remote target the
    first socket is 0 (handshake timer 1). *)

Definition run_scenario : list Event -> World -> World :=
  @run scenario_platform.

(** start() against a local backend that answers the probe and completes
    the handshake at once. *)
Definition started_locally : list Event :=
  [CallStart; FileRead None; ProbeSettled 0 ResponseOk; SocketOpen 2].

(** The same, then stop(), the close event of the socket, and the retry
    timer (7) armed by that close event running to a second handshake. *)
Definition stopped_then_reconnected : list Event :=
  started_locally ++
  [CallStop; SocketClose 2; Elapse 2500; TimerFired 7;
   ProbeSettled 8 ResponseOk; SocketOpen 10].

(** C1 (the code at the failing input). After stop() every interval is
    cancelled and isConnected is false; but the close event of the socket
    that stop() closed arms a retry timer, the timer runs connectToBackend,
    and the agent ends up connected again, with a new OPEN socket on which
    it has pushed its state. *)
Theorem C1_stopped_agent_reconnects :
  let stopped := run_scenario (started_locally ++ [CallStop]) local_agent in
  let closed := run_scenario [SocketClose 2] stopped in
  let final := run_scenario stopped_then_reconnected local_agent in
  (timers stopped = ∅ /\ socket stopped = None /\
   isConnected (state stopped) = false) /\
  (task <$> timers closed !! 7 = Some Reconnect) /\
  (isConnected (state final) = false /\
   isBackendConnected (state final) = true /\
   socket final = Some 10 /\
   (readyState <$> sockets final !! 10) = Some OPEN /\
   (sent <$> sockets final !! 10)
     = Some [OutStateUpdate [0; 0; 0]%Q [0; 0; 0; 1]%Q "idle" true]).
Proof. vm_compute. repeat split; reflexivity. Qed.

(** A timer of the idle cycle outlives stop() as well: the revert armed by
    the idle tick at 90 s (timer 7) still fires after stop() and changes the
    animation. *)
Example animation_changes_after_stop :
  let before :=
    run_scenario
      (started_locally ++
       [Elapse 25000; TimerFired 6; Elapse 5000; TimerFired 4;
        Elapse 15000; TimerFired 5; Elapse 5000; TimerFired 6;
        Elapse 10000; TimerFired 4; Elapse 15000; TimerFired 6;
        Elapse 15000; TimerFired 4; TimerFired 5; Elapse 1000; CallStop])
      local_agent in
  let after := run_scenario [Elapse 4000; TimerFired 7] before in
  isConnected (state before) = false /\
  currentAnimation (state before) = "reflection" /\
  currentAnimation (state after) = "idle".
Proof. vm_compute. repeat split; reflexivity. Qed.

(** *** Witnesses and counterexamples *)

Lemma C3_backoff_policy_witness :
  (0.9 * Qmin 60000 (5000 * Qpower 2 (3 - 1))
     <= backoffTime 3 (1 # 2))%Q /\
  (backoffTime 3 (1 # 2) <= 1.1 * Qmin 60000 (5000 * Qpower 2 (3 - 1)))%Q.
Proof.
  pose proof (@C3_backoff_policy scenario_platform
                (set_connectionAttempts (Some 3%Z) local_agent) 3 (1 # 2))
    as T.
  destruct T as [T _]; [lia|lra|lra|reflexivity|reflexivity|exact T].
Defined.

Lemma C4_probe_failure_rejects_at_once_witness :
  let w := run_scenario [CallStart; FileRead None] local_agent in
  sockets (@probeSettled scenario_platform 0 ResponseNotOk w) = sockets w.
Proof.
  pose proof (proj2 (@C4_probe_failure_rejects_at_once scenario_platform)
                (run_scenario [CallStart; FileRead None] local_agent) 0
                {| abortTimer := 1; fetchCaller := FromStart |} ResponseNotOk)
    as T.
  destruct T as (_ & _ & T & _); [reflexivity|discriminate|exact T].
Defined.

Lemma C10_voice_input_dropped_while_disconnected_witness :
  chatHistory
    (state (handleIncomingChat
              {| body := "Bless me"; from := "visitor"; fromId := Some "u1" |}
              local_agent))
  = chatHistory (state local_agent).
Proof.
  pose proof (C10_voice_input_dropped_while_disconnected local_agent "x"
                {| body := "Bless me"; from := "visitor"; fromId := Some "u1" |})
    as T.
  destruct T as [_ T]; [by left|].
  destruct T as (_ & T & _); [discriminate|exact T].
Defined.



(** C2 as stated fails twice over.  One update carrying a new position and
    speaking:true leaves both flags set with the animation "talking"; and
    when speaking was set first and the movement then completes, the
    animation remains "walking". *)
Lemma C2_counterexample :
  let both := updateStateFromBackend
                {| position := Some [1; 0; 0]%Q; rotation := None;
                   speaking := Some true; thinking := None;
                   browser_active := None; current_model := None;
                   animations := None |} local_agent in
  let spoke := updateStateFromBackend
                 {| position := None; rotation := None;
                    speaking := Some true; thinking := None;
                    browser_active := None; current_model := None;
                    animations := None |} local_agent in
  let moved := updateStateFromBackend
                 {| position := Some [1; 0; 0]%Q; rotation := None;
                    speaking := None; thinking := None;
                    browser_active := None; current_model := None;
                    animations := None |} spoke in
  (isMoving (state both) = true /\ isSpeaking (state both) = true /\
   currentAnimation (state both) = "talking") /\
  (isMoving (state (moveDone moved)) = false /\
   isSpeaking (state (moveDone moved)) = true /\
   currentAnimation (state (moveDone moved)) = "walking").
Proof. vm_compute. repeat split; reflexivity. Qed.

Lemma C2_last_writer_wins_witness :
  currentAnimation
    (state (updateStateFromBackend
              {| position := Some [1; 0; 0]%Q; rotation := None;
                 speaking := Some true; thinking := None;
                 browser_active := None; current_model := None;
                 animations := None |} local_agent))
  = "talking".
Proof.
  pose proof (C2_last_writer_wins local_agent
                {| position := Some [1; 0; 0]%Q; rotation := None;
                   speaking := Some true; thinking := None;
                   browser_active := None; current_model := None;
                   animations := None |} [1; 0; 0]%Q) as T.
  destruct T as [T _];
    [reflexivity|reflexivity|reflexivity|reflexivity|reflexivity|].
  destruct T as (_ & _ & T); [reflexivity|exact T].
Defined.

(** The agent while browsing: the state in which the guard of the speaking
    block goes wrong. *)
Definition browsing_agent : World :=
  updateStateFromBackend
    {| position := None; rotation := None; speaking := None; thinking := None;
       browser_active := Some true; current_model := None;
       animations := None |} local_agent.

Lemma C5_clearing_speaking_ignores_browsing_witness :
  let w' := updateStateFromBackend
              {| position := None; rotation := None; speaking := Some false;
                 thinking := None; browser_active := None;
                 current_model := None; animations := None |} browsing_agent in
  currentAnimation (state browsing_agent) = "browsing" /\
  browserActive (state w') = true /\
  currentAnimation (state w') = "idle".
Proof.
  pose proof (C5_clearing_speaking_ignores_browsing browsing_agent) as T.
  destruct T as [T1 T2]; [reflexivity|reflexivity|].
  cbv zeta. rewrite T1, T2. repeat split; reflexivity.
Defined.

(** C9 as stated fails: an update that sets both speaking and thinking
    switches the animation twice more when it is applied a second time. *)
Lemma C9_counterexample :
  let b := {| position := None; rotation := None; speaking := Some true;
              thinking := Some true; browser_active := None;
              current_model := None; animations := None |} in
  let w1 := updateStateFromBackend b local_agent in
  let w2 := updateStateFromBackend b w1 in
  actuation w1 = [Animate "talking"; Animate "thinking"] /\
  actuation w2 = (actuation w1 ++ [Animate "talking"; Animate "thinking"])%list.
Proof. vm_compute. split; reflexivity. Qed.

Lemma C9_second_update_leaves_state_and_pose_witness :
  let b := {| position := Some [1; 0; 0]%Q; rotation := None;
              speaking := Some true; thinking := None;
              browser_active := None; current_model := Some "grok";
              animations := None |} in
  updateStateFromBackend b (updateStateFromBackend b local_agent)
  = updateStateFromBackend b local_agent.
Proof.
  pose proof (C9_second_update_leaves_state_and_pose
                {| position := Some [1; 0; 0]%Q; rotation := None;
                   speaking := Some true; thinking := None;
                   browser_active := None; current_model := Some "grok";
                   animations := None |} local_agent) as T.
  destruct T as (_ & T & _). apply T. exact I.
Defined.

(** The payload [null] with logging off: caught and reported. *)
Example null_payload_reported :
  console (@handleBackendMessage scenario_platform "null" local_agent)
  = [ConsoleError "Error handling backend message:"] /\
  state (@handleBackendMessage scenario_platform "null" local_agent)
  = state local_agent.
Proof. vm_compute. split; reflexivity. Qed.

(** C6 as stated fails: right after stop(), and until the close event of
    the socket is delivered, isBackendConnected is true and isConnected is
    false. *)
Lemma C6_counterexample :
  ~ (forall w, @reachable scenario_platform w ->
       isBackendConnected (state w) = true -> isConnected (state w) = true).
Proof.
  intros Hall.
  specialize (Hall (run_scenario (started_locally ++ [CallStop]) local_agent)).
  assert (Hr : @reachable scenario_platform
                 (run_scenario (started_locally ++ [CallStop]) local_agent)).
  { exists scenario_host, local_config, 0%Q,
      (started_locally ++ [CallStop])%list.
    reflexivity. }
  specialize (Hall Hr). vm_compute in Hall. specialize (Hall eq_refl).
  discriminate.
Qed.

Lemma C6_connected_between_start_and_stop_witness :
  isConnected
    (state (run_scenario [SocketClose 2; Elapse 30000; TimerFired 4]
              (run_scenario started_locally local_agent))) = true.
Proof.
  pose proof (@C6_connected_between_start_and_stop scenario_platform
                [SocketClose 2; Elapse 30000; TimerFired 4]
                (run_scenario started_locally local_agent)) as T.
  destruct T as [T _]; [reflexivity| |exact T].
  repeat constructor; discriminate.
Defined.

(** The converse of C6 does not hold either way round: here the agent is
    started and its backend connection is lost. *)
Example connected_without_backend :
  let w := run_scenario (started_locally ++ [SocketClose 2]) local_agent in
  isConnected (state w) = true /\ isBackendConnected (state w) = false.
Proof. vm_compute. split; reflexivity. Qed.

(** Two attempts in flight against the remote target.  The first socket (0)
    is lost at 29 s; its close event arms retry 5, the monitor tick at 30 s
    arms retry 6; the two retries create sockets 7 and 9. *)
Definition two_attempts_in_flight : list Event :=
  [CallStart; FileRead None; SocketOpen 0;
   Elapse 25000; TimerFired 4; Elapse 4000; SocketClose 0;
   Elapse 1000; TimerFired 2; Elapse 1500; TimerFired 5;
   Elapse 1000; TimerFired 6].

(** C7 (the code at the failing input). Socket 7 completes its handshake
    while the agent already holds socket 9, which is still CONNECTING: the
    flag is set, the counter is reset and the promise of socket 7 is
    resolved, but sendStateToBackend looks at this.socket, finds it not
    OPEN and returns, so no STATE_UPDATE is sent on any socket. *)
Theorem C7_push_skipped_with_two_attempts_in_flight :
  let w := run_scenario two_attempts_in_flight remote_agent in
  let w' := socketOpen 7 w in
  (readyState <$> sockets w !! 7) = Some CONNECTING /\
  (readyState <$> sockets w !! 9) = Some CONNECTING /\
  socket w = Some 9 /\
  (readyState <$> sockets w' !! 7) = Some OPEN /\
  (promise <$> sockets w' !! 7) = Some Resolved /\
  isBackendConnected (state w') = true /\
  connectionAttempts w' = Some 0%Z /\
  (sent <$> sockets w') = (sent <$> sockets w) /\
  (sent <$> sockets w' !! 7) = Some [].
Proof. vm_compute. repeat split; reflexivity. Qed.

Lemma handshake_on_current_socket_witness :
  let w := run_scenario [CallStart; FileRead None] remote_agent in
  connectionAttempts (socketOpen 0 w) = Some 0%Z.
Proof.
  pose proof (@handshake_on_current_socket scenario_platform
                (run_scenario [CallStart; FileRead None] remote_agent) 0
                {| readyState := CONNECTING; sent := []; handshakeTimer := 1;
                   promise := Pending; awaitedBy := FromStart |}) as T.
  destruct T as (_ & T & _); [reflexivity|reflexivity|reflexivity|reflexivity|].
  exact T.
Defined.
